(** * The misuse-case generation endpoint of [app.py]

    A shallow embedding of the Flask application in [src/app.py]: the
    request logger [APILogger], the module-level configuration and the
    handler of [POST /generate_misuse_cases], together with the Python
    operations the handler relies on (truthiness, [dict.get], [in],
    item assignment, [str.join], slicing, [re.search] on the handler's
    pattern).

    Python values are the values [json.loads] and [request.json] can
    produce.  Python exceptions are explicit results; logging and the
    outbound call are recorded in a trace that survives exceptions, as
    the side effects of the interpreter do. *)

From Stdlib Require Import String Ascii DecimalString.
From Stdlib Require Import List NArith ZArith Bool Arith Lia.
Import ListNotations.
Local Open Scope list_scope.

Set Warnings "-register-all".

(** ** Strings

    A Python [str] is a sequence of Unicode code points; [len] is
    [length] and the slice [s[:n]] is [firstn n s]. *)

Definition char := N.
Definition str := list char.

Definition dquote : char := 34%N.

(** String literals.  [lit] reads a literal character by character;
    a backquote in the literal stands for the double quote character,
    which the literals of the source contain and a backquote never
    does. *)
Definition char_of_ascii (a : ascii) : char :=
  let c := N_of_ascii a in if N.eqb c 96 then dquote else c.

Definition lit (s : string) : str := List.map char_of_ascii (list_ascii_of_string s).

Fixpoint str_eqb (a b : str) : bool :=
  match a, b with
  | [], [] => true
  | x :: a', y :: b' => N.eqb x y && str_eqb a' b'
  | _, _ => false
  end.

Fixpoint is_prefix (p s : str) : bool :=
  match p, s with
  | [], _ => true
  | x :: p', y :: s' => N.eqb x y && is_prefix p' s'
  | _ :: _, [] => false
  end.

(** [sub in s] on two strings: substring test. *)
Fixpoint is_substring (sub s : str) : bool :=
  is_prefix sub s ||
  match s with
  | [] => false
  | _ :: s' => is_substring sub s'
  end.

(** [sep.join(items)] on a list of strings. *)
Fixpoint join (sep : str) (items : list str) : str :=
  match items with
  | [] => []
  | [x] => x
  | x :: rest => x ++ sep ++ join sep rest
  end.

(** ** Python values

    The values of a decoded JSON document.  A [dict] keeps its keys in
    insertion order; a float is represented by its [repr], which
    determines it. *)

Inductive json : Type :=
| JNull
| JBool (b : bool)
| JInt (z : Z)
| JFloat (repr : str)
| JStr (s : str)
| JArr (items : list json)
| JObj (fields : list (str * json)).

(** The name of the type of a value, as it appears in error messages. *)
Definition type_name (v : json) : str :=
  match v with
  | JNull => lit "NoneType"
  | JBool _ => lit "bool"
  | JInt _ => lit "int"
  | JFloat _ => lit "float"
  | JStr _ => lit "str"
  | JArr _ => lit "list"
  | JObj _ => lit "dict"
  end.

(** Truth value testing: [None], [False], zero, and the empty string,
    list and dict are false. *)
Definition truthy (v : json) : bool :=
  match v with
  | JNull => false
  | JBool b => b
  | JInt z => negb (Z.eqb z 0)
  | JFloat r => negb (str_eqb r (lit "0.0") || str_eqb r (lit "-0.0"))
  | JStr s => negb (Nat.eqb (length s) 0)
  | JArr l => negb (Nat.eqb (length l) 0)
  | JObj kvs => negb (Nat.eqb (length kvs) 0)
  end.

(** ** Exceptions

    Only subclasses of [Exception] are modelled; [JSONDecodeError] is
    the one class the handler tells apart. *)

Inductive exn_class : Type :=
| JSONDecodeError
| TypeError
| AttributeError
| OtherException (name : str).

Record exn : Type := Exn { exn_cls : exn_class; exn_str : str }.

Definition is_JSONDecodeError (e : exn) : bool :=
  match exn_cls e with
  | JSONDecodeError => true
  | _ => false
  end.

Inductive res (A : Type) : Type :=
| Ok (a : A)
| Exc (e : exn).

Arguments Ok {A} a.
Arguments Exc {A} e.

Definition res_bind {A B} (r : res A) (k : A -> res B) : res B :=
  match r with
  | Ok a => k a
  | Exc e => Exc e
  end.

Fixpoint res_map {A B} (f : A -> res B) (l : list A) : res (list B) :=
  match l with
  | [] => Ok []
  | x :: l' =>
      res_bind (f x) (fun y =>
      res_bind (res_map f l') (fun ys => Ok (y :: ys)))
  end.

(** ** Operations on values *)

Fixpoint assoc_get (k : str) (kvs : list (str * json)) : option json :=
  match kvs with
  | [] => None
  | (k', v) :: rest => if str_eqb k k' then Some v else assoc_get k rest
  end.

Definition has_key (k : str) (kvs : list (str * json)) : bool :=
  match assoc_get k kvs with
  | Some _ => true
  | None => false
  end.

(** [d[k] = v] on a dict: an existing key keeps its position, a new key
    goes last. *)
Fixpoint assoc_set (k : str) (v : json) (kvs : list (str * json)) : list (str * json) :=
  match kvs with
  | [] => [(k, v)]
  | (k', v') :: rest =>
      if str_eqb k k' then (k', v) :: rest else (k', v') :: assoc_set k v rest
  end.

(** [obj.get(key, default)]: only a dict has the method. *)
Definition py_get (obj : json) (key : str) (default : json) : res json :=
  match obj with
  | JObj kvs =>
      match assoc_get key kvs with
      | Some v => Ok v
      | None => Ok default
      end
  | _ => Exc (Exn AttributeError
                (lit "'" ++ type_name obj ++ lit "' object has no attribute 'get'"))
  end.

Definition is_the_str (s : str) (v : json) : bool :=
  match v with
  | JStr s' => str_eqb s s'
  | _ => false
  end.

(** [key in obj] for a string [key]: key membership in a dict, element
    membership in a list, substring test in a string; the other types
    are no containers. *)
Definition py_in (key : str) (obj : json) : res bool :=
  match obj with
  | JObj kvs => Ok (has_key key kvs)
  | JArr l => Ok (existsb (is_the_str key) l)
  | JStr s => Ok (is_substring key s)
  | _ => Exc (Exn TypeError
                (lit "argument of type '" ++ type_name obj ++ lit "' is not iterable"))
  end.

(** [obj[key] = v] for a string [key]. *)
Definition py_setitem (obj : json) (key : str) (v : json) : res json :=
  match obj with
  | JObj kvs => Ok (JObj (assoc_set key v kvs))
  | JArr _ => Exc (Exn TypeError (lit "list indices must be integers or slices, not str"))
  | _ => Exc (Exn TypeError
                (lit "'" ++ type_name obj ++ lit "' object does not support item assignment"))
  end.

(** The items an iteration over a value yields: the elements of a list,
    the keys of a dict, the characters of a string. *)
Definition py_iter (v : json) : res (list json) :=
  match v with
  | JArr l => Ok l
  | JObj kvs => Ok (List.map (fun kv => JStr (fst kv)) kvs)
  | JStr s => Ok (List.map (fun c => JStr [c]) s)
  | _ => Exc (Exn TypeError (lit "'" ++ type_name v ++ lit "' object is not iterable"))
  end.

(** Decimal rendering of a natural number. *)
Definition str_of_nat (n : nat) : str := lit (NilEmpty.string_of_uint (Nat.to_uint n)).

(** The strings among [items], from position [i] on; the first item
    that is no string raises. *)
Fixpoint as_strs (i : nat) (items : list json) : res (list str) :=
  match items with
  | [] => Ok []
  | JStr s :: rest => res_bind (as_strs (S i) rest) (fun l => Ok (s :: l))
  | v :: _ =>
      Exc (Exn TypeError
             (lit "sequence item " ++ str_of_nat i ++ lit ": expected str instance, "
                ++ type_name v ++ lit " found"))
  end.

(** [sep.join(v)]: [v] must be iterable and yield strings only. *)
Definition py_join (sep : str) (v : json) : res str :=
  match py_iter v with
  | Ok items => res_bind (as_strs 0 items) (fun l => Ok (join sep l))
  | Exc _ => Exc (Exn TypeError (lit "can only join an iterable"))
  end.

(** ** The search pattern

    The handler searches with [re.search(r'\[\s*\{.*\}\s*\]', result,
    re.DOTALL)].  The pattern is a sequence of single characters and
    greedy stars over character classes; [match_here] is the
    backtracking matcher of [re] on such patterns: a greedy star first
    tries to take one more character and gives it back when the rest of
    the pattern fails. *)

Inductive cclass : Type :=
| CChar (c : char)     (* an escaped literal character *)
| CSpace               (* \s *)
| CAny.                (* . under re.DOTALL *)

Inductive item : Type :=
| One (a : cclass)
| Star (a : cclass).

Definition pattern := list item.

(** Unicode whitespace, the characters [\s] matches in a [str] pattern. *)
Definition is_space (c : char) : bool :=
  ((9 <=? c) && (c <=? 13) || (28 <=? c) && (c <=? 32)
   || (c =? 133) || (c =? 160) || (c =? 5760)
   || (8192 <=? c) && (c <=? 8202)
   || (c =? 8232) || (c =? 8233) || (c =? 8239) || (c =? 8287) || (c =? 12288))%N.

Definition accepts (a : cclass) (c : char) : bool :=
  match a with
  | CChar c' => N.eqb c c'
  | CSpace => is_space c
  | CAny => true
  end.

(** The text matched by [p] at the start of [s], if any. *)
Fixpoint match_here (p : pattern) (s : str) : option str :=
  match p with
  | [] => Some []
  | One a :: p' =>
      match s with
      | c :: s' =>
          if accepts a c then option_map (cons c) (match_here p' s') else None
      | [] => None
      end
  | Star a :: p' =>
      (fix star (s : str) : option str :=
         match s with
         | c :: s' =>
             if accepts a c then
               match star s' with
               | Some m => Some (c :: m)
               | None => match_here p' s
               end
             else match_here p' s
         | [] => match_here p' s
         end) s
  end.

(** [re.search(p, s)]: the match at the leftmost position that has one
    ([group(0)] of the match object). *)
Fixpoint re_search (p : pattern) (s : str) : option str :=
  match match_here p s with
  | Some m => Some m
  | None =>
      match s with
      | [] => None
      | _ :: s' => re_search p s'
      end
  end.

(** r'\[\s*\{.*\}\s*\]' with re.DOTALL *)
Definition json_array_pattern : pattern :=
  [One (CChar 91); Star CSpace; One (CChar 123); Star CAny;
   One (CChar 125); Star CSpace; One (CChar 93)]%N.

(** ** Effects

    The logging sink and the outbound calls are a trace of events, the
    clock a sequence of readings of [datetime.now()].  A computation
    changes the world and returns a value or raises; what it did to the
    world before raising stays done. *)

(** A chat message, a [dict] from strings to strings. *)
Definition message := list (str * str).

Fixpoint message_get (key : str) (default : str) (m : message) : str :=
  match m with
  | [] => default
  | (k, v) :: rest => if str_eqb key k then v else message_get key default rest
  end.

(** The arguments of [client.chat.completions.create]. *)
Record gateway_call : Type := GatewayCall {
  gc_model : option str;
  gc_messages : list message;
  gc_temperature : str;
  gc_timeout : nat
}.

(** What the client does on a call: [Completed c] when it returns a
    response whose [choices[0].message.content] is [c] ([None] is a
    possible content), [Failed e] when the call or the access to the
    content raises [e]. *)
Inductive completion : Type :=
| Completed (content : option str)
| Failed (e : exn).

Definition gateway := gateway_call -> completion.

Inductive level : Type := INFO | ERROR.

(** The records the application logs, one constructor per message
    template of the source. *)
Inductive log_msg : Type :=
| ApiRequest (model : str)          (* "API REQUEST: {model}" *)
| Temperature (t : str)             (* "Temperature: {temperature}" *)
| MessageCount (n : nat)            (* "Message count: {len(messages)}" *)
| LastMessagePreview (p : str)      (* "Last message preview: {preview}" *)
| Param (key value : str)           (* "Param {key}: {value}" *)
| ApiResponse (status : str)        (* "API RESPONSE: {status}" *)
| Duration (d : Z)                  (* "Duration: {duration.total_seconds():.2f}s" *)
| ContentLength (n : nat)           (* "Content length: {content_length} chars" *)
| Error (e : str)                   (* "Error: {error}" *)
| Line (text : str)                 (* a message of the root logger *)
| Traceback (e : exn).              (* traceback.format_exc() *)

Inductive event : Type :=
| Log (logger : str) (lv : level) (msg : log_msg)
| Call (c : gateway_call).

Record world : Type := World {
  trace : list event;       (* what happened so far, oldest first *)
  reads : nat               (* how often the clock was read *)
}.

Definition M (A : Type) : Type := world -> res A * world.

Definition ret {A} (a : A) : M A := fun w => (Ok a, w).

Definition raise {A} (e : exn) : M A := fun w => (Exc e, w).

Definition lift {A} (r : res A) : M A := fun w => (r, w).

Definition bind {A B} (m : M A) (k : A -> M B) : M B :=
  fun w =>
    match m w with
    | (Ok a, w') => k a w'
    | (Exc e, w') => (Exc e, w')
    end.

(** [try: m except cls as e: h e], for the classes [sel] selects. *)
Definition try_except {A} (sel : exn -> bool) (m : M A) (h : exn -> M A) : M A :=
  fun w =>
    match m w with
    | (Ok a, w') => (Ok a, w')
    | (Exc e, w') => if sel e then h e w' else (Exc e, w')
    end.

(** [except Exception]: every modelled exception. *)
Definition Exception (e : exn) : bool := true.

Definition emit (e : event) : M unit :=
  fun w => (Ok tt, {| trace := trace w ++ [e]; reads := reads w |}).

Declare Scope py_scope.
Delimit Scope py_scope with py.
Notation "x <- m ;; k" := (bind m (fun x => k))
  (at level 61, m at next level, right associativity) : py_scope.
Notation "m ;; k" := (bind m (fun _ => k))
  (at level 61, right associativity) : py_scope.
Local Open Scope py_scope.

(** [for x in l: f x] *)
Fixpoint for_each {A} (l : list A) (f : A -> M unit) : M unit :=
  match l with
  | [] => ret tt
  | x :: l' => f x ;; for_each l' f
  end.

(** ** The Python runtime

    What the handler takes from the interpreter and its library:
    [json.loads] on a string and [repr] of a value. *)
Record runtime : Type := Runtime {
  json_loads : str -> res json;
  py_repr : json -> str
}.

(** The HTTP response: status code and the value given to [jsonify]. *)
Record response : Type := Response {
  status_code : nat;
  body : json
}.

Definition jsonify (fields : list (str * json)) : json := JObj fields.

(** The module-level names the handler reads. *)
Record config : Type := Config {
  AISUITE_AVAILABLE : bool;
  client : option gateway;
  MODEL : option str
}.

(** Lines 10-16 and 66-75: [aisuite] is the client [ai.Client()] gives
    when the import succeeds, [None] when it raises [ImportError]. *)
Definition module_init (aisuite : option gateway) : config :=
  match aisuite with
  | Some c =>
      {| AISUITE_AVAILABLE := true;
         client := Some c;
         MODEL := Some (lit "groq:meta-llama/llama-4-maverick-17b-128e-instruct") |}
  | None =>
      {| AISUITE_AVAILABLE := false; client := None; MODEL := None |}
  end.

Definition required_fields : list str :=
  [lit "name"; lit "description"; lit "actor"; lit "impact"].

(** f"Informasi {field} tidak tersedia" *)
Definition placeholder (field : str) : str :=
  lit "Informasi " ++ field ++ lit " tidak tersedia".

(** Lines 183-184. *)
Definition fill_field (misuse_case : json) (field : str) : res json :=
  res_bind (py_in field misuse_case) (fun present =>
  if negb present then py_setitem misuse_case field (JStr (placeholder field))
  else Ok misuse_case).

(** Lines 182-184: the loop over the required fields. *)
Fixpoint fill_fields (fields : list str) (misuse_case : json) : res json :=
  match fields with
  | [] => Ok misuse_case
  | field :: rest => res_bind (fill_field misuse_case field) (fill_fields rest)
  end.

(** Lines 180-184: the loop over [misuse_cases], and the value
    [misuse_cases] has after it.  The elements of a list are updated in
    place; the items of a dict or a string are strings, which an
    assignment cannot change, so those containers stay as they are. *)
Definition normalise (misuse_cases : json) : res json :=
  res_bind (py_iter misuse_cases) (fun items =>
  res_bind (res_map (fill_fields required_fields) items) (fun items' =>
  Ok (match misuse_cases with
      | JArr _ => JArr items'
      | _ => misuse_cases
      end))).

(** Line 43. *)
Definition preview_of (last_msg : str) : str :=
  firstn 100 last_msg ++ (if 100 <? length last_msg then lit "..." else []).

Definition system_prompt : str :=
  lit "Anda adalah seorang ahli keamanan yang mengkhususkan diri dalam mengidentifikasi potensi kasus penyalahgunaan (misuse case) untuk sistem perangkat lunak.
        Diberikan sebuah use case, identifikasi 3-5 skenario penyalahgunaan potensial yang dapat mengancamnya.
        Format respons Anda sebagai array JSON dengan struktur berikut:
        [
            {
                `name`: `Nama singkat kasus penyalahgunaan`,
                `description`: `Deskripsi detail yang menjelaskan skenario penyalahgunaan`,
                `actor`: `Jenis aktor berbahaya yang mungkin melakukan ini`,
                `impact`: `Dampak potensial dari kasus penyalahgunaan ini`
            },
            ...
        ]
        PENTING: Respons Anda HARUS sepenuhnya dalam Bahasa Indonesia, termasuk semua nilai dalam JSON.
        Hanya berikan array JSON saja tanpa tambahan kalimat lain.".

Section Application.

Variable rt : runtime.
Variable clock : nat -> Z.

(** [datetime.now()] *)
Definition now : M Z :=
  fun w => (Ok (clock (reads w)), {| trace := trace w; reads := S (reads w) |}).

(** format(v, ''), what an f-string does to an interpolated value. *)
Definition py_format (v : json) : str :=
  match v with
  | JStr s => s
  | _ => py_repr rt v
  end.

Definition format_opt (v : option str) : str :=
  match v with
  | Some s => s
  | None => lit "None"
  end.

(** *** APILogger *)

Definition api_llm : str := lit "api.llm".
Definition root : str := lit "root".

Definition logger_info (m : log_msg) : M unit := emit (Log api_llm INFO m).
Definition logger_error (m : log_msg) : M unit := emit (Log api_llm ERROR m).
Definition logging_error (m : log_msg) : M unit := emit (Log root ERROR m).

(** Lines 35-50. *)
Definition log_request (model : option str) (messages : list message)
    (temperature : str) (kwargs : list (str * json)) : M Z :=
  logger_info (ApiRequest (format_opt model)) ;;
  logger_info (Temperature temperature) ;;
  logger_info (MessageCount (length messages)) ;;
  (if negb (length messages =? 0) && (0 <? length messages) then
     let last_msg := message_get (lit "content") [] (last messages []) in
     let preview := preview_of last_msg in
     logger_info (LastMessagePreview preview)
   else ret tt) ;;
  for_each kwargs (fun kv => logger_info (Param (fst kv) (py_format (snd kv)))) ;;
  now.

(** Lines 52-62. *)
Definition log_response (start_time : Z) (status : str)
    (content_length : option nat) (error : option str) : M unit :=
  t <- now ;;
  let duration := (t - start_time)%Z in
  logger_info (ApiResponse status) ;;
  logger_info (Duration duration) ;;
  (match content_length with
   | Some (S n) => logger_info (ContentLength (S n))
   | _ => ret tt
   end) ;;
  (match error with
   | Some (c :: e) => logger_error (Error (c :: e))
   | _ => ret tt
   end).

(** *** The handler of POST /generate_misuse_cases *)

Variable cfg : config.

(** client.chat.completions.create(...) followed by
    response.choices[0].message.content *)
Definition create (c : gateway_call) : M (option str) :=
  match client cfg with
  | Some gw =>
      emit (Call c) ;;
      match gw c with
      | Completed content => ret content
      | Failed e => raise e
      end
  | None =>
      raise (Exn AttributeError (lit "'NoneType' object has no attribute 'chat'"))
  end.

(** json.loads(result), [result] being a string or [None]. *)
Definition loads (result : option str) : res json :=
  match result with
  | Some s => json_loads rt s
  | None =>
      Exc (Exn TypeError
             (lit "the JSON object must be str, bytes or bytearray, not NoneType"))
  end.

Definition status_success : str * json := (lit "status", JStr (lit "success")).
Definition status_error : str * json := (lit "status", JStr (lit "error")).

(** Lines 206-217: the answer when no parsing attempt succeeded. *)
Definition parse_failure (start_time : Z) : M response :=
  let error_msg := lit "Gagal memproses respons LLM sebagai JSON" in
  log_response start_time (lit "error") None (Some error_msg) ;;
  ret (Response 200 (jsonify [status_error;
                              (lit "message", JStr error_msg);
                              (lit "data", JArr [])])).

(** Lines 188-217: the handler of [json.JSONDecodeError].  The code
    after the inner try statement is reached from the except clause
    and when nothing matched. *)
Definition on_decode_error (start_time : Z) (result : option str) : M response :=
  match result with
  | Some text =>
      match re_search json_array_pattern text with
      | Some group0 =>
          try_except Exception
            (misuse_cases <- lift (json_loads rt group0) ;;
             ret (Response 200 (jsonify [status_success;
                                         (lit "data", misuse_cases)])))
            (fun parse_error =>
               log_response start_time (lit "error") None
                 (Some (lit "Kesalahan parsing JSON: " ++ exn_str parse_error)) ;;
               logging_error (Line (lit "JSON parse error: " ++ exn_str parse_error)) ;;
               logging_error (Traceback parse_error) ;;
               parse_failure start_time)
      | None => parse_failure start_time
      end
  | None => raise (Exn TypeError (lit "expected string or bytes-like object, got 'NoneType'"))
  end.

(** Lines 175-217. *)
Definition parse_and_respond (start_time : Z) (result : option str) : M response :=
  try_except is_JSONDecodeError
    (misuse_cases <- lift (loads result) ;;
     misuse_cases <- lift (normalise misuse_cases) ;;
     ret (Response 200 (jsonify [status_success; (lit "data", misuse_cases)])))
    (fun _ => on_decode_error start_time result).

(** Lines 156-232. *)
Definition call_and_respond (messages : list message) (start_time : Z) : M response :=
  try_except Exception
    (result <- create {| gc_model := MODEL cfg;
                         gc_messages := messages;
                         gc_temperature := lit "0.7";
                         gc_timeout := 30 |} ;;
     log_response start_time (lit "success")
       (Some (match result with
              | Some (c :: r) => length (c :: r)
              | _ => 0
              end)) None ;;
     parse_and_respond start_time result)
    (fun e =>
       log_response start_time (lit "error") None (Some (exn_str e)) ;;
       logging_error (Line (lit "LLM API error: " ++ exn_str e)) ;;
       logging_error (Traceback e) ;;
       ret (Response 200
              (jsonify [status_error;
                        (lit "message",
                         JStr (lit "Error saat generate kasus penyalahgunaan: " ++ exn_str e));
                        (lit "data", JArr [])]))).

(** Lines 134-139. *)
Definition user_prompt (use_case_name system_name : json) (related : str) : str :=
  lit "Use Case: " ++ py_format use_case_name ++ lit "
        Sistem: " ++ py_format system_name ++ lit "
        Use Case Terkait: " ++ related ++ lit "
        Harap generate 3-5 kasus penyalahgunaan (misuse case) realistis yang dapat mengancam use case ini.
        Fokus pada kerentanan keamanan, pola penggunaan berbahaya, dan potensi eksploitasi sistem.
        Respons Anda HARUS dalam Bahasa Indonesia.".

(** Lines 141-144. *)
Definition chat_messages (use_case_name system_name : json) (related : str) : list message :=
  [ [(lit "role", lit "system"); (lit "content", system_prompt)];
    [(lit "role", lit "user");
     (lit "content", user_prompt use_case_name system_name related)] ].

(** Lines 96-242.  [request_json] is what evaluating [request.json]
    gives: the decoded body, or the exception Flask raises for a body
    it cannot decode. *)
Definition generate_misuse_cases (request_json : res json) : M response :=
  if negb (AISUITE_AVAILABLE cfg) || match client cfg with None => true | Some _ => false end
  then
    ret (Response 503
           (jsonify [status_error;
                     (lit "message",
                      JStr (lit "AI service tidak tersedia. Fitur ini memerlukan konfigurasi AI."))]))
  else
    try_except Exception
      (data <- lift request_json ;;
       use_case_name <- lift (py_get data (lit "useCaseName") (JStr [])) ;;
       system_name <- lift (py_get data (lit "systemName") (JStr (lit "the system"))) ;;
       other_use_cases <- lift (py_get data (lit "otherUseCases") (JArr [])) ;;
       if negb (truthy use_case_name) then
         ret (Response 400
                (jsonify [status_error;
                          (lit "message", JStr (lit "Nama use case diperlukan"))]))
       else
         related <- lift (if truthy other_use_cases
                          then py_join (lit ", ") other_use_cases
                          else Ok (lit "Tidak ada")) ;;
         let messages := chat_messages use_case_name system_name related in
         start_time <- log_request (MODEL cfg) messages (lit "0.7")
                         [(lit "user_case", use_case_name);
                          (lit "system_name", system_name)] ;;
         call_and_respond messages start_time)
      (fun e =>
         logging_error (Line (lit "Unexpected error in generate_misuse_cases: " ++ exn_str e)) ;;
         logging_error (Traceback e) ;;
         ret (Response 500
                (jsonify [status_error;
                          (lit "message", JStr (lit "Kesalahan tidak terduga: " ++ exn_str e));
                          (lit "data", JArr [])]))).

(** Lines 81-94: the handler of POST /save.  The body is read and not
    used. *)
Definition save_diagram (request_json : res json) : M response :=
  try_except Exception
    (data <- lift request_json ;;
     ret (Response 200 (jsonify [status_success])))
    (fun e =>
       logging_error (Line (lit "Error saving diagram: " ++ exn_str e)) ;;
       logging_error (Traceback e) ;;
       ret (Response 500
              (jsonify [status_error;
                        (lit "message",
                         JStr (lit "Gagal menyimpan diagram: " ++ exn_str e))]))).

End Application.

(** ** A reference runtime

    A decoder and a [repr] to run the handler on concrete inputs.
    [json_decode] follows [json.loads] (strict mode) on JSON texts
    whose numbers are integers: whitespace, literals, strings with
    their escapes, arrays and objects, a repeated key keeping its first
    position and its last value.  Numbers with a fraction or an
    exponent and the literals NaN and Infinity, which [json.loads]
    turns into floats, are outside of it and reported as unsupported.
    [repr_value] follows [repr] on values whose strings hold printable
    characters. *)
Module Reference.

Definition decode_error (msg : string) : exn := Exn JSONDecodeError (lit msg).

Definition is_json_ws (c : char) : bool :=
  ((c =? 32) || (c =? 9) || (c =? 10) || (c =? 13))%N.

Fixpoint skip_ws (s : str) : str :=
  match s with
  | c :: s' => if is_json_ws c then skip_ws s' else s
  | [] => []
  end.

Definition is_digit (c : char) : bool := ((48 <=? c) && (c <=? 57))%N.

Definition hex_value (c : char) : option N :=
  (if (48 <=? c) && (c <=? 57) then Some (c - 48)
   else if (97 <=? c) && (c <=? 102) then Some (c - 87)
   else if (65 <=? c) && (c <=? 70) then Some (c - 55)
   else None)%N.

(** The four hexadecimal digits after a backslash-u. *)
Definition hex4 (s : str) : option (N * str) :=
  match s with
  | a :: b :: c :: d :: s' =>
      match hex_value a, hex_value b, hex_value c, hex_value d with
      | Some x, Some y, Some z, Some w => Some (x * 4096 + y * 256 + z * 16 + w, s')%N
      | _, _, _, _ => None
      end
  | _ => None
  end.

(** The characters of a string literal after its opening quote. *)
Fixpoint scan_string (fuel : nat) (s : str) : res (str * str) :=
  match fuel with
  | O => Exc (decode_error "Unterminated string starting at")
  | S fuel' =>
      match s with
      | [] => Exc (decode_error "Unterminated string starting at")
      | c :: s' =>
          if (c =? 34)%N then Ok ([], s')
          else if (c =? 92)%N then
            match s' with
            | [] => Exc (decode_error "Unterminated string starting at")
            | e :: s'' =>
                let simple (x : char) :=
                  res_bind (scan_string fuel' s'') (fun r => Ok (x :: fst r, snd r)) in
                if (e =? 34)%N then simple 34%N
                else if (e =? 92)%N then simple 92%N
                else if (e =? 47)%N then simple 47%N
                else if (e =? 98)%N then simple 8%N
                else if (e =? 102)%N then simple 12%N
                else if (e =? 110)%N then simple 10%N
                else if (e =? 114)%N then simple 13%N
                else if (e =? 116)%N then simple 9%N
                else if (e =? 117)%N then
                  match hex4 s'' with
                  | None => Exc (decode_error "Invalid \uXXXX escape")
                  | Some (u, t) =>
                      let single := res_bind (scan_string fuel' t)
                                      (fun r => Ok (u :: fst r, snd r)) in
                      if ((55296 <=? u) && (u <=? 56319))%N then
                        match t with
                        | 92%N :: 117%N :: t' =>
                            match hex4 t' with
                            | Some (u2, t'') =>
                                if ((56320 <=? u2) && (u2 <=? 57343))%N then
                                  res_bind (scan_string fuel' t'')
                                    (fun r =>
                                       Ok ((65536 + (u - 55296) * 1024 + (u2 - 56320))%N
                                             :: fst r, snd r))
                                else single
                            | None => single
                            end
                        | _ => single
                        end
                      else single
                  end
                else Exc (decode_error "Invalid \escape")
            end
          else if (c <? 32)%N then Exc (decode_error "Invalid control character at")
          else res_bind (scan_string fuel' s') (fun r => Ok (c :: fst r, snd r))
      end
  end.

Fixpoint take_digits (s : str) : str * str :=
  match s with
  | c :: s' =>
      if is_digit c then let (d, r) := take_digits s' in (c :: d, r) else ([], s)
  | [] => ([], [])
  end.

Definition digits_value (d : str) : Z :=
  fold_left (fun acc c => (acc * 10 + Z.of_N (c - 48))%Z) d 0%Z.

Definition unsupported : exn :=
  Exn (OtherException (lit "Unsupported")) (lit "float literal").

(** Is a fraction or an exponent next? *)
Definition float_follows (s : str) : bool :=
  match s with
  | 46%N :: d :: _ => is_digit d
  | e :: d :: rest =>
      ((e =? 101) || (e =? 69))%N &&
      (is_digit d ||
       ((d =? 43) || (d =? 45))%N && match rest with
                                     | d' :: _ => is_digit d'
                                     | [] => false
                                     end)
  | _ => false
  end.

(** The integer part of a number: 0, or digits with no leading zero. *)
Definition scan_integer (s : str) : option (Z * str) :=
  match s with
  | 48%N :: s' => Some (0%Z, s')
  | c :: _ =>
      if is_digit c then let (d, r) := take_digits s in Some (digits_value d, r)
      else None
  | [] => None
  end.

Definition scan_number (s : str) : option (res (json * str)) :=
  let finish (neg : bool) (r : option (Z * str)) :=
    match r with
    | Some (z, rest) =>
        Some (if float_follows rest then Exc unsupported
              else Ok (JInt (if neg then (- z)%Z else z), rest))
    | None => None
    end in
  match s with
  | 45%N :: s' => finish true (scan_integer s')
  | _ => finish false (scan_integer s)
  end.

Definition expecting_value : exn := decode_error "Expecting value".

Fixpoint scan_value (fuel : nat) (s : str) : res (json * str) :=
  match fuel with
  | O => Exc (Exn (OtherException (lit "RecursionError"))
                (lit "maximum recursion depth exceeded"))
  | S fuel' =>
      match s with
      | 34%N :: s' =>
          res_bind (scan_string (length s') s') (fun r => Ok (JStr (fst r), snd r))
      | 123%N :: s' =>
          match skip_ws s' with
          | 125%N :: rest => Ok (JObj [], rest)
          | s1 => scan_members fuel' s1 []
          end
      | 91%N :: s' =>
          match skip_ws s' with
          | 93%N :: rest => Ok (JArr [], rest)
          | s1 => scan_elements fuel' s1 []
          end
      | _ =>
          if is_prefix (lit "null") s then Ok (JNull, skipn 4 s)
          else if is_prefix (lit "true") s then Ok (JBool true, skipn 4 s)
          else if is_prefix (lit "false") s then Ok (JBool false, skipn 5 s)
          else if is_prefix (lit "NaN") s || is_prefix (lit "Infinity") s
                  || is_prefix (lit "-Infinity") s then Exc unsupported
          else match scan_number s with
               | Some r => r
               | None => Exc expecting_value
               end
      end
  end

(** The elements of an array, [s] standing at an element; [acc] holds
    the elements read so far, last first. *)
with scan_elements (fuel : nat) (s : str) (acc : list json) : res (json * str) :=
  match fuel with
  | O => Exc (Exn (OtherException (lit "RecursionError"))
                (lit "maximum recursion depth exceeded"))
  | S fuel' =>
      res_bind (scan_value fuel' s) (fun r =>
      match skip_ws (snd r) with
      | 93%N :: rest => Ok (JArr (rev (fst r :: acc)), rest)
      | 44%N :: rest => scan_elements fuel' (skip_ws rest) (fst r :: acc)
      | _ => Exc (decode_error "Expecting ',' delimiter")
      end)
  end

(** The members of an object, [s] standing at a key. *)
with scan_members (fuel : nat) (s : str) (acc : list (str * json)) : res (json * str) :=
  match fuel with
  | O => Exc (Exn (OtherException (lit "RecursionError"))
                (lit "maximum recursion depth exceeded"))
  | S fuel' =>
      match s with
      | 34%N :: s' =>
          res_bind (scan_string (length s') s') (fun k =>
          match skip_ws (snd k) with
          | 58%N :: s1 =>
              res_bind (scan_value fuel' (skip_ws s1)) (fun r =>
              let acc' := assoc_set (fst k) (fst r) acc in
              match skip_ws (snd r) with
              | 125%N :: rest => Ok (JObj acc', rest)
              | 44%N :: rest => scan_members fuel' (skip_ws rest) acc'
              | _ => Exc (decode_error "Expecting ',' delimiter")
              end)
          | _ => Exc (decode_error "Expecting ':' delimiter")
          end)
      | _ => Exc (decode_error "Expecting property name enclosed in double quotes")
      end
  end.

(** json.loads(s) *)
Definition json_decode (s : str) : res json :=
  match s with
  | 65279%N :: _ => Exc (decode_error "Unexpected UTF-8 BOM (decode using utf-8-sig)")
  | _ =>
      res_bind (scan_value (2 * length s + 2) (skip_ws s)) (fun r =>
      match skip_ws (snd r) with
      | [] => Ok (fst r)
      | _ :: _ => Exc (decode_error "Extra data")
      end)
  end.

Definition hex_digit (n : N) : char := (if n <? 10 then 48 + n else 87 + n)%N.

Definition repr_char (quote c : char) : str :=
  (if (c =? quote) || (c =? 92) then [92; c]
   else if c =? 9 then [92; 116]
   else if c =? 10 then [92; 110]
   else if c =? 13 then [92; 114]
   else if (c <? 32) || (c =? 127) then [92; 120; hex_digit (c / 16); hex_digit (c mod 16)]
   else [c])%N.

Definition has_char (c : char) (s : str) : bool := existsb (N.eqb c) s.

(** repr of a string: single quotes, unless the string has one and has
    no double quote. *)
Definition repr_str (s : str) : str :=
  let quote := (if has_char 39 s && negb (has_char 34 s) then 34 else 39)%N in
  [quote] ++ flat_map (repr_char quote) s ++ [quote].

Fixpoint repr_value (v : json) : str :=
  match v with
  | JNull => lit "None"
  | JBool true => lit "True"
  | JBool false => lit "False"
  | JInt z => lit (NilZero.string_of_int (Z.to_int z))
  | JFloat r => r
  | JStr s => repr_str s
  | JArr l => lit "[" ++ join (lit ", ") (List.map repr_value l) ++ lit "]"
  | JObj kvs =>
      lit "{" ++
      join (lit ", ")
        (List.map (fun kv => repr_str (fst kv) ++ lit ": " ++ repr_value (snd kv)) kvs)
      ++ lit "}"
  end.

Definition python : runtime := {| json_loads := json_decode; py_repr := repr_value |}.

End Reference.

(** ** Notions the statements use *)

(** The strings a pattern matches, by the usual reading of sequence and
    star. *)
Inductive Matches : pattern -> str -> Prop :=
| Matches_nil : Matches [] []
| Matches_one a p c m :
    accepts a c = true -> Matches p m -> Matches (One a :: p) (c :: m)
| Matches_skip a p m :
    Matches p m -> Matches (Star a :: p) m
| Matches_take a p c m :
    accepts a c = true -> Matches (Star a :: p) m -> Matches (Star a :: p) (c :: m).

Definition spaces (ws : str) : Prop := Forall (fun c => is_space c = true) ws.

(** An opening bracket, whitespace, an opening brace, any span, a
    closing brace, whitespace, a closing bracket. *)
Definition array_shape (m : str) : Prop :=
  exists ws1 span ws2,
    m = [91%N] ++ ws1 ++ [123%N] ++ span ++ [125%N] ++ ws2 ++ [93%N]
    /\ spaces ws1 /\ spaces ws2.

(** A closing brace, whitespace, a closing bracket. *)
Definition closing_shape (x : str) : Prop :=
  exists ws, x = [125%N] ++ ws ++ [93%N] /\ spaces ws.

(** The end of the search pattern: r'\}\s*\]' *)
Definition closing_pattern : pattern :=
  [One (CChar 125); Star CSpace; One (CChar 93)]%N.

(** What [p] leaves unmatched holds no match of [q]. *)
Definition exhausts (q p : pattern) : Prop :=
  forall s m post, match_here p s = Some m -> s = m ++ post ->
  forall a x b, post = a ++ x ++ b -> ~ Matches q x.

(** [m] is the first substring of [text] with the array shape, its span
    taken greedily: no such substring starts earlier, and no closing
    brace and bracket are left in the text after [m]. *)
Definition first_greedy_match (text m : str) : Prop :=
  exists pre post,
    text = pre ++ m ++ post
    /\ array_shape m
    /\ (forall pre' m' post',
          text = pre' ++ m' ++ post' -> array_shape m' -> length pre <= length pre')
    /\ (forall a x b, post = a ++ x ++ b -> ~ closing_shape x).

(** No substring of [text] has the array shape. *)
Definition no_match (text : str) : Prop :=
  forall pre m post, text = pre ++ m ++ post -> ~ array_shape m.

(** The value a computation gives in a world, and the events it adds to
    the trace. *)
Definition answer {A} (m : M A) (w : world) : res A := fst (m w).

Definition events_of {A} (m : M A) (w : world) : list event :=
  skipn (length (trace w)) (trace (snd (m w))).

Definition clock_reads {A} (m : M A) (w : world) : nat := reads (snd (m w)) - reads w.

(** The outbound calls among some events. *)
Fixpoint calls (evs : list event) : list gateway_call :=
  match evs with
  | [] => []
  | Call c :: rest => c :: calls rest
  | Log _ _ _ :: rest => calls rest
  end.

(** A field of the response body. *)
Definition field (name : string) (r : response) : option json :=
  match body r with
  | JObj kvs => assoc_get (lit name) kvs
  | _ => None
  end.

(** The LLM integration is available: the guard of the handler passes. *)
Definition available (cfg : config) : Prop :=
  AISUITE_AVAILABLE cfg = true /\ exists gw, client cfg = Some gw.

(** The stub behind the client of a configuration. *)
Definition answers (cfg : config) (c : gateway_call) (r : completion) : Prop :=
  exists gw, client cfg = Some gw /\ gw c = r.

Definition is_object (v : json) : bool :=
  match v with
  | JObj _ => true
  | _ => false
  end.

Definition is_str (v : json) : bool :=
  match v with
  | JStr _ => true
  | _ => false
  end.

(** A request body of the shape the data model gives a
    MisuseCaseRequest: an object with a non-empty string [useCaseName],
    a string [systemName] if any, and a sequence of strings
    [otherUseCases] if any. *)
Definition valid_request (data : json) : bool :=
  match data with
  | JObj kvs =>
      match assoc_get (lit "useCaseName") kvs with
      | Some (JStr (_ :: _)) => true
      | _ => false
      end
      && match assoc_get (lit "systemName") kvs with
         | Some v => is_str v
         | None => true
         end
      && match assoc_get (lit "otherUseCases") kvs with
         | Some (JArr l) => forallb is_str l
         | Some _ => false
         | None => true
         end
  | _ => false
  end.

(** The ShapeNormalizer of the specification on one object: each
    required field that is missing is inserted with its placeholder;
    the fields the object has stay as they are, in their order. *)
Definition missing_in (kvs : list (str * json)) (f : str) : bool := negb (has_key f kvs).

Definition placeholder_entry (f : str) : str * json := (f, JStr (placeholder f)).

Definition fill_missing (kvs : list (str * json)) : list (str * json) :=
  kvs ++ List.map placeholder_entry (filter (missing_in kvs) required_fields).

(** The text cannot be parsed by either stage: decoding it raises, and
    the search finds nothing or finds a substring whose decoding raises. *)
Definition unparseable (rt : runtime) (text : str) : Prop :=
  (exists e, json_loads rt text = Exc e)
  /\ (re_search json_array_pattern text = None
      \/ exists m e, re_search json_array_pattern text = Some m
                     /\ json_loads rt m = Exc e).

(** A soft error: HTTP 200, status "error", an empty data array. *)
Definition soft_error (r : response) : Prop :=
  status_code r = 200
  /\ field "status" r = Some (JStr (lit "error"))
  /\ field "data" r = Some (JArr []).

(** The body of the two soft errors and of the unexpected error. *)
Definition error_body (message : str) : json :=
  JObj [(lit "status", JStr (lit "error"));
        (lit "message", JStr message);
        (lit "data", JArr [])].

Definition success_body (data : json) : json :=
  JObj [(lit "status", JStr (lit "success")); (lit "data", data)].

Definition parse_failure_response : response :=
  Response 200 (error_body (lit "Gagal memproses respons LLM sebagai JSON")).

Definition gateway_error_response (e : exn) : response :=
  Response 200 (error_body (lit "Error saat generate kasus penyalahgunaan: " ++ exn_str e)).

Definition unexpected_response (e : exn) : response :=
  Response 500 (error_body (lit "Kesalahan tidak terduga: " ++ exn_str e)).

Definition validation_response : response :=
  Response 400 (JObj [(lit "status", JStr (lit "error"));
                      (lit "message", JStr (lit "Nama use case diperlukan"))]).

Definition unavailable_response : response :=
  Response 503
    (JObj [(lit "status", JStr (lit "error"));
           (lit "message",
            JStr (lit "AI service tidak tersedia. Fitur ini memerlukan konfigurasi AI."))]).

(** The records [log_request] and [log_response] write. *)
Definition request_records (rt : runtime) (model : option str) (messages : list message)
    (temperature : str) (kwargs : list (str * json)) : list event :=
  [Log api_llm INFO (ApiRequest (format_opt model));
   Log api_llm INFO (Temperature temperature);
   Log api_llm INFO (MessageCount (length messages))]
  ++ (if negb (length messages =? 0) && (0 <? length messages)
      then [Log api_llm INFO
              (LastMessagePreview
                 (preview_of (message_get (lit "content") [] (last messages []))))]
      else [])
  ++ List.map (fun kv => Log api_llm INFO (Param (fst kv) (py_format rt (snd kv)))) kwargs.

Definition response_records (duration : Z) (status : str)
    (content_length : option nat) (error : option str) : list event :=
  [Log api_llm INFO (ApiResponse status); Log api_llm INFO (Duration duration)]
  ++ match content_length with
     | Some (S n) => [Log api_llm INFO (ContentLength (S n))]
     | _ => []
     end
  ++ match error with
     | Some (c :: e) => [Log api_llm ERROR (Error (c :: e))]
     | _ => []
     end.

(** *** The handler as a function

    What the handler answers, and the calls it makes, as functions of
    the runtime, the configuration and the request; the handler is
    shown to compute them whatever the clock and the world. *)

(** The response to the completion of the gateway call. *)
Definition respond (rt : runtime) (r : completion) : response :=
  match r with
  | Failed e => gateway_error_response e
  | Completed result =>
      match loads rt result with
      | Ok misuse_cases =>
          match normalise misuse_cases with
          | Ok data => Response 200 (success_body data)
          | Exc e => gateway_error_response e
          end
      | Exc e =>
          if is_JSONDecodeError e then
            match result with
            | Some text =>
                match re_search json_array_pattern text with
                | Some group0 =>
                    match json_loads rt group0 with
                    | Ok data => Response 200 (success_body data)
                    | Exc _ => parse_failure_response
                    end
                | None => parse_failure_response
                end
            | None =>
                gateway_error_response
                  (Exn TypeError (lit "expected string or bytes-like object, got 'NoneType'"))
            end
          else gateway_error_response e
      end
  end.

(** What the handler makes of a request before the gateway call. *)
Inductive intake : Type :=
| Unexpected (e : exn)
| Rejected
| Accepted (c : gateway_call).

Definition intake_of (rt : runtime) (cfg : config) (request_json : res json) : intake :=
  match
    res_bind request_json (fun data =>
    res_bind (py_get data (lit "useCaseName") (JStr [])) (fun use_case_name =>
    res_bind (py_get data (lit "systemName") (JStr (lit "the system"))) (fun system_name =>
    res_bind (py_get data (lit "otherUseCases") (JArr [])) (fun other_use_cases =>
    if negb (truthy use_case_name) then Ok None
    else
      res_bind (if truthy other_use_cases
                then py_join (lit ", ") other_use_cases
                else Ok (lit "Tidak ada")) (fun related =>
      Ok (Some {| gc_model := MODEL cfg;
                  gc_messages := chat_messages rt use_case_name system_name related;
                  gc_temperature := lit "0.7";
                  gc_timeout := 30 |}))))))
  with
  | Exc e => Unexpected e
  | Ok None => Rejected
  | Ok (Some c) => Accepted c
  end.

Definition guard_fails (cfg : config) : bool :=
  negb (AISUITE_AVAILABLE cfg) || match client cfg with None => true | Some _ => false end.

Definition response_of (rt : runtime) (cfg : config) (request_json : res json) : response :=
  if guard_fails cfg then unavailable_response
  else
    match intake_of rt cfg request_json with
    | Unexpected e => unexpected_response e
    | Rejected => validation_response
    | Accepted c =>
        match client cfg with
        | Some gw => respond rt (gw c)
        | None => unavailable_response
        end
    end.

Definition calls_of (rt : runtime) (cfg : config) (request_json : res json)
    : list gateway_call :=
  if guard_fails cfg then []
  else
    match intake_of rt cfg request_json with
    | Accepted c => [c]
    | _ => []
    end.

(** *** Further notions *)

(** The values the handler reads from a request object (lines 107-109). *)
Definition use_case_name_of (kvs : list (str * json)) : json :=
  match assoc_get (lit "useCaseName") kvs with
  | Some v => v
  | None => JStr []
  end.

Definition system_name_of (kvs : list (str * json)) : json :=
  match assoc_get (lit "systemName") kvs with
  | Some v => v
  | None => JStr (lit "the system")
  end.

Definition other_use_cases_of (kvs : list (str * json)) : json :=
  match assoc_get (lit "otherUseCases") kvs with
  | Some v => v
  | None => JArr []
  end.

(** A record written at the ERROR level, by either logger. *)
Definition is_error_record (e : event) : bool :=
  match e with
  | Log _ ERROR _ => true
  | _ => false
  end.

Definition logs_error (evs : list event) : bool := existsb is_error_record evs.

(** The previews among some events. *)
Fixpoint previews (evs : list event) : list str :=
  match evs with
  | [] => []
  | Log _ _ (LastMessagePreview p) :: rest => p :: previews rest
  | _ :: rest => previews rest
  end.

(** null, a boolean or a number. *)
Definition is_scalar (v : json) : bool :=
  match v with
  | JNull | JBool _ | JInt _ | JFloat _ => true
  | _ => false
  end.

Definition has_required_fields (kvs : list (str * json)) : bool :=
  forallb (fun f => has_key f kvs) required_fields.

(** The records of the call to [log_response] that follows the gateway
    call, [d] being the time since the request was logged. *)
Definition first_response_records (d : Z) (r : completion) : list event :=
  match r with
  | Completed result =>
      response_records d (lit "success")
        (Some (match result with
               | Some (c :: r) => length (c :: r)
               | _ => 0
               end)) None
  | Failed e => response_records d (lit "error") None (Some (exn_str e))
  end.

(** The response carries status "success". *)
Definition is_success (r : response) : bool :=
  match field "status" r with
  | Some (JStr s) => str_eqb s (lit "success")
  | _ => false
  end.

(** ** Sample inputs *)
Module Samples.

(** A client whose call completes with the given text, and one whose
    call raises. *)
Definition completes_with (text : string) : gateway :=
  fun _ => Completed (Some (lit text)).

Definition times_out : gateway :=
  fun _ => Failed (Exn (OtherException (lit "TimeoutError")) (lit "Request timed out.")).

Definition configured (gw : gateway) : config := module_init (Some gw).
Definition unconfigured : config := module_init None.

Definition midnight : nat -> Z := fun n => Z.of_nat n.
Definition fresh : world := World [] 0.

(** {"useCaseName": "Login", "systemName": "Banking App", "otherUseCases": ["Logout"]} *)
Definition login_request : json :=
  JObj [(lit "useCaseName", JStr (lit "Login"));
        (lit "systemName", JStr (lit "Banking App"));
        (lit "otherUseCases", JArr [JStr (lit "Logout")])].

(** The call the handler makes for [login_request]. *)
Definition login_call : gateway_call :=
  {| gc_model := Some (lit "groq:meta-llama/llama-4-maverick-17b-128e-instruct");
     gc_messages :=
       chat_messages Reference.python (JStr (lit "Login")) (JStr (lit "Banking App"))
         (lit "Logout");
     gc_temperature := lit "0.7";
     gc_timeout := 30 |}.

(** A reply with the array inside a sentence. *)
Definition wrapped_reply : string := "Hasil: [{`name`:`X`}] selesai".

(** {"useCaseName": "   "} *)
Definition blank_request : json := JObj [(lit "useCaseName", JStr (lit "   "))].

(** {"systemName": "Banking App"} *)
Definition nameless_request : json := JObj [(lit "systemName", JStr (lit "Banking App"))].

Definition run (gw : gateway) (data : json) : res response * world :=
  generate_misuse_cases Reference.python midnight (configured gw) (Ok data) fresh.

(** A message of 101 characters. *)
Definition long_message : message := [(lit "role", lit "user"); (lit "content", repeat 97%N 101)].

End Samples.

(** ** The pattern search *)

Lemma match_here_sound (p : pattern) :
  forall s m, match_here p s = Some m -> Matches p m /\ exists rest, s = m ++ rest.
Proof.
  induction p as [|[a|a] p IH]; intros s m H.
  - inversion H; subst. split; [constructor | now exists s].
  - simpl in H. destruct s as [|c s']; [discriminate|].
    destruct (accepts a c) eqn:Ha; [|discriminate].
    destruct (match_here p s') as [m'|] eqn:Hm; [|discriminate].
    inversion H; subst. destruct (IH _ _ Hm) as [HM [rest ->]].
    split; [now constructor | now exists rest].
  - revert m H. induction s as [|c s' IHs]; intros m H; simpl in H.
    + destruct (IH _ _ H) as [HM Hr]. split; [now constructor | exact Hr].
    + destruct (accepts a c) eqn:Ha.
      * match type of H with
        | match ?X with _ => _ end = _ => destruct X as [m'|] eqn:Hs
        end.
        -- inversion H; subst. destruct (IHs _ Hs) as [HM [rest ->]].
           split; [now constructor | now exists rest].
        -- destruct (IH _ _ H) as [HM Hr]. split; [now constructor | exact Hr].
      * destruct (IH _ _ H) as [HM Hr]. split; [now constructor | exact Hr].
Qed.

Lemma match_here_complete (p : pattern) :
  forall s, match_here p s = None ->
  forall m rest, s = m ++ rest -> ~ Matches p m.
Proof.
  induction p as [|[a|a] p IH]; intros s H m rest Hs HM.
  - discriminate.
  - simpl in H. inversion HM; subst. simpl in H.
    match goal with Ha : accepts a _ = true |- _ => rewrite Ha in H end.
    destruct (match_here p (m0 ++ rest)) eqn:Hm; [discriminate|].
    now apply (IH _ Hm m0 rest).
  - revert m rest Hs HM. induction s as [|c s' IHs]; intros m rest Hs HM; simpl in H.
    + symmetry in Hs. apply app_eq_nil in Hs. destruct Hs; subst.
      inversion HM; subst. now apply (IH [] H [] []).
    + assert (Hp : match_here p (c :: s') = None).
      { destruct (accepts a c); [|exact H].
        match type of H with
        | match ?X with _ => _ end = _ => destruct X; [discriminate | exact H]
        end. }
      inversion HM; subst.
      * now apply (IH _ Hp m rest).
      * simpl in Hs. inversion Hs; subst.
        match goal with Ha : accepts a _ = true |- _ => rewrite Ha in H end.
        match type of H with
        | match ?X with _ => _ end = _ => destruct X eqn:Hstar; [discriminate|]
        end.
        now apply (IHs Hstar m0 rest).
Qed.

Lemma Matches_star_split a p m :
  Matches (Star a :: p) m ->
  exists xs m', m = xs ++ m' /\ Forall (fun c => accepts a c = true) xs /\ Matches p m'.
Proof.
  intros H. remember (Star a :: p) as q eqn:Hq.
  induction H as [|a' p' c m Ha HM IHM|a' p' m HM IHM|a' p' c m Ha HM IHM];
    try discriminate; inversion Hq; subst.
  - exists [], m. repeat split; [constructor | exact HM].
  - destruct (IHM eq_refl) as (xs & m' & -> & Hxs & Hm').
    exists (c :: xs), m'. repeat split; [now constructor | exact Hm'].
Qed.

Lemma Matches_star_join a p xs m :
  Forall (fun c => accepts a c = true) xs -> Matches p m -> Matches (Star a :: p) (xs ++ m).
Proof.
  induction 1 as [|c xs Hc Hxs IH]; intros HM; simpl.
  - now constructor.
  - apply Matches_take; [exact Hc | now apply IH].
Qed.

Lemma Matches_any_prefix p pre m :
  Matches p m -> Matches (Star CAny :: p) (pre ++ m).
Proof.
  intros HM. apply Matches_star_join; [|exact HM].
  apply Forall_forall. reflexivity.
Qed.

Lemma closing_shape_Matches x : closing_shape x <-> Matches closing_pattern x.
Proof.
  unfold closing_pattern. split.
  - intros (ws & -> & Hws). simpl. constructor; [reflexivity|].
    apply Matches_star_join; [exact Hws|].
    constructor; [reflexivity | constructor].
  - intros H. inversion H as [|a p c m Ha HM| |]; subst.
    apply N.eqb_eq in Ha; subst c.
    apply Matches_star_split in HM. destruct HM as (ws & m' & -> & Hws & Hm').
    inversion Hm' as [|a p c m Ha HM| |]; subst.
    apply N.eqb_eq in Ha; subst c. inversion HM; subst.
    exists ws. split; [reflexivity | exact Hws].
Qed.

Lemma array_shape_Matches m : array_shape m <-> Matches json_array_pattern m.
Proof.
  unfold json_array_pattern. split.
  - intros (ws1 & span & ws2 & -> & H1 & H2). simpl.
    constructor; [reflexivity|].
    apply Matches_star_join; [exact H1|]. simpl.
    constructor; [reflexivity|].
    apply Matches_any_prefix.
    apply (proj1 (closing_shape_Matches _)). now exists ws2.
  - intros H. inversion H as [|a p c m1 Ha HM| |]; subst.
    apply N.eqb_eq in Ha; subst c.
    apply Matches_star_split in HM. destruct HM as (ws1 & m2 & -> & H1 & Hm2).
    inversion Hm2 as [|a p c m3 Ha HM| |]; subst.
    apply N.eqb_eq in Ha; subst c.
    apply Matches_star_split in HM. destruct HM as (span & m4 & -> & _ & Hm4).
    apply (proj2 (closing_shape_Matches _)) in Hm4. destruct Hm4 as (ws2 & -> & H2).
    exists ws1, span, ws2. repeat split; assumption.
Qed.

Lemma match_here_star_cons a p c s :
  match_here (Star a :: p) (c :: s) =
  if accepts a c then
    match match_here (Star a :: p) s with
    | Some m => Some (c :: m)
    | None => match_here p (c :: s)
    end
  else match_here p (c :: s).
Proof. reflexivity. Qed.

Lemma match_here_star_nil a p : match_here (Star a :: p) [] = match_here p [].
Proof. reflexivity. Qed.

(** What is left after a match of a greedy [.*] followed by [q] holds
    no further match of [q], provided [q] matches no empty string. *)
Lemma exhausts_any (q : pattern) :
  ~ Matches q [] -> exhausts q (Star CAny :: q).
Proof.
  intros Hne s. induction s as [|c s' IHs]; intros m post H Hs a x b Hpost HM.
  - rewrite match_here_star_nil in H. destruct (match_here_sound _ _ _ H) as [Hq _].
    destruct m; [now apply Hne | discriminate].
  - rewrite match_here_star_cons in H. cbn [accepts] in H.
    destruct (match_here (Star CAny :: q) s') as [m'|] eqn:Hstar.
    + inversion H; subst m.
      simpl in Hs. inversion Hs as [Hs'].
      exact (IHs m' post eq_refl Hs' a x b Hpost HM).
    + destruct (match_here_sound _ _ _ H) as [Hq _].
      destruct m as [|c' m2]; [now apply Hne|].
      simpl in Hs. inversion Hs as [[Hc Hs']].
      apply (match_here_complete _ _ Hstar ((m2 ++ a) ++ x) b).
      * subst post. now rewrite <- !app_assoc.
      * now apply Matches_any_prefix.
Qed.

Lemma exhausts_cons (q p : pattern) (i : item) :
  exhausts q p -> exhausts q (i :: p).
Proof.
  intros Hp. destruct i as [c|c]; intros s.
  - intros m post H Hs a x b Hpost.
    simpl in H. destruct s as [|d s']; [discriminate|].
    destruct (accepts c d); [|discriminate].
    destruct (match_here p s') as [m'|] eqn:Hm; [|discriminate].
    inversion H; subst m. simpl in Hs. inversion Hs as [Hs'].
    exact (Hp s' m' post Hm Hs' a x b Hpost).
  - induction s as [|d s' IHs]; intros m post H Hs a x b Hpost.
    + rewrite match_here_star_nil in H. exact (Hp [] m post H Hs a x b Hpost).
    + rewrite match_here_star_cons in H.
      destruct (accepts c d).
      * destruct (match_here (Star c :: p) s') as [m'|] eqn:Hstar.
        -- inversion H; subst m.
           simpl in Hs. inversion Hs as [Hs'].
           exact (IHs m' post eq_refl Hs' a x b Hpost).
        -- exact (Hp _ m post H Hs a x b Hpost).
      * exact (Hp _ m post H Hs a x b Hpost).
Qed.

Lemma app_split_lt {A} (l1 r1 l2 r2 : list A) :
  l1 ++ r1 = l2 ++ r2 -> length l2 < length l1 ->
  exists d, d <> [] /\ l1 = l2 ++ d /\ r2 = d ++ r1.
Proof.
  revert l1. induction l2 as [|y l2 IH]; intros l1 H Hlen.
  - exists l1. simpl in *. repeat split; [|now symmetry].
    destruct l1; [simpl in Hlen; lia | discriminate].
  - destruct l1 as [|x l1]; [simpl in Hlen; lia|].
    simpl in H. inversion H; subst.
    destruct (IH l1) as (d & Hd & -> & ->); [assumption | simpl in Hlen; lia|].
    exists d. now repeat split.
Qed.

Lemma re_search_some (p : pattern) :
  forall s m, re_search p s = Some m ->
  exists pre post,
    s = pre ++ m ++ post
    /\ match_here p (m ++ post) = Some m
    /\ (forall pre1 d, pre = pre1 ++ d -> d <> [] ->
        match_here p (d ++ m ++ post) = None).
Proof.
  induction s as [|c s' IHs]; intros m H; simpl in H.
  - destruct (match_here p []) as [m'|] eqn:Hm; [|discriminate].
    inversion H; subst m'. destruct (match_here_sound _ _ _ Hm) as [_ [rest Hr]].
    exists [], rest. simpl.
      split; [exact Hr|]. split; [now rewrite <- Hr|].
    intros pre1 d Hd Hne. symmetry in Hd. apply app_eq_nil in Hd. now destruct Hd.
  - destruct (match_here p (c :: s')) as [m'|] eqn:Hm.
    + inversion H; subst m'. destruct (match_here_sound _ _ _ Hm) as [_ [rest Hr]].
      exists [], rest. simpl.
      split; [exact Hr|]. split; [now rewrite <- Hr|].
      intros pre1 d Hd Hne. symmetry in Hd. apply app_eq_nil in Hd. now destruct Hd.
    + destruct (IHs m H) as (pre & post & Hs & Hmatch & Hleft).
      exists (c :: pre), post. simpl.
      split; [now rewrite Hs|]. split; [exact Hmatch|].
      intros pre1 d Hd Hne. destruct pre1 as [|c1 pre1].
      * simpl in Hd. subst d. simpl. now rewrite <- Hs.
      * simpl in Hd. inversion Hd; subst. now apply (Hleft pre1).
Qed.

Lemma re_search_none (p : pattern) :
  forall s, re_search p s = None ->
  forall pre m post, s = pre ++ m ++ post -> ~ Matches p m.
Proof.
  induction s as [|c s' IHs]; intros H pre m post Hs; simpl in H.
  - destruct (match_here p []) eqn:Hm; [discriminate|].
    symmetry in Hs. apply app_eq_nil in Hs. destruct Hs as [-> Hs].
    now apply (match_here_complete _ _ Hm m post).
  - destruct (match_here p (c :: s')) eqn:Hm; [discriminate|].
    destruct pre as [|c' pre].
    + now apply (match_here_complete _ _ Hm m post).
    + simpl in Hs. inversion Hs; subst. now apply (IHs H pre m post).
Qed.

Lemma closing_pattern_nonempty : ~ Matches closing_pattern [].
Proof. intros H. inversion H. Qed.

Lemma json_array_pattern_exhausts : exhausts closing_pattern json_array_pattern.
Proof.
  unfold json_array_pattern.
  do 3 apply exhausts_cons.
  apply (exhausts_any _ closing_pattern_nonempty).
Qed.

Lemma re_search_first_greedy text m :
  re_search json_array_pattern text = Some m -> first_greedy_match text m.
Proof.
  intros H. destruct (re_search_some _ _ _ H) as (pre & post & Hs & Hm & Hleft).
  exists pre, post. split; [exact Hs|].
  destruct (match_here_sound _ _ _ Hm) as [HM _].
  split; [now apply array_shape_Matches|]. split.
  - intros pre' m' post' Hs' Hshape.
    destruct (Nat.le_gt_cases (length pre) (length pre')) as [Hle|Hlt]; [exact Hle|].
    exfalso. rewrite Hs in Hs'.
    destruct (app_split_lt _ _ _ _ Hs' Hlt) as (d & Hd & Hpre & Hrest).
    apply (match_here_complete _ _ (Hleft pre' d Hpre Hd) m' post').
    + now symmetry.
    + now apply array_shape_Matches.
  - intros a x b Hpost Hx.
    apply (json_array_pattern_exhausts _ _ _ Hm eq_refl a x b Hpost).
    now apply closing_shape_Matches.
Qed.

Lemma re_search_no_match text :
  re_search json_array_pattern text = None -> no_match text.
Proof.
  intros H pre m post Hs Hshape.
  apply (re_search_none _ _ H pre m post Hs). now apply array_shape_Matches.
Qed.

Lemma ends_with_bracket (m q : str) (z : char) :
  m = q ++ [93%N] -> forall p l0, m = p ++ l0 ++ [z] -> z = 93%N.
Proof.
  intros -> p l0 H. rewrite app_assoc in H.
  apply app_inj_tail in H. now destruct H.
Qed.

(** A string with the array shape cannot be extended to another one
    unless the extension holds a closing brace and bracket. *)
Lemma array_shape_extension (m d : str) :
  array_shape m -> array_shape (m ++ d) -> d <> [] ->
  exists a x, d = a ++ x /\ closing_shape x.
Proof.
  intros (u1 & s1 & u2 & Hm & _ & _) (ws1 & span & ws2 & Hmd & _ & Hws2) Hd.
  assert (Hlast : exists q, m = q ++ [93%N]).
  { exists ([91%N] ++ u1 ++ [123%N] ++ s1 ++ [125%N] ++ u2).
    rewrite Hm. now rewrite <- !app_assoc. }
  destruct Hlast as [q Hq].
  assert (Hclose : closing_shape ([125%N] ++ ws2 ++ [93%N])) by (now exists ws2).
  replace ([91%N] ++ ws1 ++ [123%N] ++ span ++ [125%N] ++ ws2 ++ [93%N])
    with (([91%N] ++ ws1 ++ [123%N] ++ span) ++ ([125%N] ++ ws2 ++ [93%N])) in Hmd
    by (now rewrite <- !app_assoc).
  apply app_eq_app in Hmd. destruct Hmd as [l [[Hm' Hx] | [Hp Hd']]].
  - destruct (exists_last Hd) as (d0 & zd & ->).
    destruct l as [|c l].
    + exists [], ([125%N] ++ ws2 ++ [93%N]). split; [|exact Hclose].
      simpl in Hx. simpl. now symmetry.
    + exfalso. destruct (@exists_last _ (c :: l)) as (l0 & z & Hl); [discriminate|].
      rewrite Hl in Hm', Hx.
      assert (z = 93%N) by (eapply (ends_with_bracket m q); eauto). subst z.
      destruct l0 as [|c0 l0]; simpl in Hx; inversion Hx as [[Hc Hrest]].
      rewrite app_assoc in Hrest.
      apply app_inj_tail in Hrest. destruct Hrest as [Hws _].
      unfold spaces in Hws2. rewrite Hws in Hws2.
      apply Forall_app in Hws2. destruct Hws2 as [Hws2 _].
      apply Forall_app in Hws2. destruct Hws2 as [_ Hws2].
      inversion Hws2 as [|x xs Hsp _]. discriminate.
  - exists l, ([125%N] ++ ws2 ++ [93%N]). split; [exact Hd' | exact Hclose].
Qed.

Lemma app_same_length {A} (l1 r1 l2 r2 : list A) :
  l1 ++ r1 = l2 ++ r2 -> length l1 = length l2 -> l1 = l2 /\ r1 = r2.
Proof.
  revert l2. induction l1 as [|x l1 IH]; intros [|y l2] H Hlen; try discriminate.
  - now split.
  - simpl in H. inversion H; subst. simpl in Hlen.
    destruct (IH l2) as [-> ->]; [assumption | lia | now split].
Qed.

(** The first greedy match is unique. *)
Lemma first_greedy_match_unique (text m m' : str) :
  first_greedy_match text m -> first_greedy_match text m' -> m = m'.
Proof.
  intros (pre & post & Ht & Hshape & Hleft & Hgreedy)
         (pre' & post' & Ht' & Hshape' & Hleft' & Hgreedy').
  assert (Hlen : length pre = length pre').
  { apply Nat.le_antisymm.
    - exact (Hleft pre' m' post' Ht' Hshape').
    - exact (Hleft' pre m post Ht Hshape). }
  rewrite Ht in Ht'. destruct (app_same_length _ _ _ _ Ht' Hlen) as [_ Hrest].
  apply app_eq_app in Hrest. destruct Hrest as [l [[Hm Hp] | [Hm Hp]]].
  - destruct l as [|c l]; [now rewrite app_nil_r in Hm|]. exfalso.
    rewrite Hm in Hshape.
    destruct (array_shape_extension m' (c :: l) Hshape' Hshape) as (a & x & Hl & Hx);
      [discriminate|].
    apply (Hgreedy' a x post); [|exact Hx].
    rewrite Hp, Hl. now rewrite <- !app_assoc.
  - destruct l as [|c l]; [now rewrite app_nil_r in Hm|]. exfalso.
    rewrite Hm in Hshape'.
    destruct (array_shape_extension m (c :: l) Hshape Hshape') as (a & x & Hl & Hx);
      [discriminate|].
    apply (Hgreedy a x post'); [|exact Hx].
    rewrite Hp, Hl. now rewrite <- !app_assoc.
Qed.

(** ** Running the logger and the handler *)

Lemma calls_app (a b : list event) : calls (a ++ b) = calls a ++ calls b.
Proof.
  induction a as [|[l lv m|c] a IH]; simpl; [reflexivity | exact IH | now rewrite IH].
Qed.

Lemma calls_request_records rt model messages temperature kwargs :
  calls (request_records rt model messages temperature kwargs) = [].
Proof.
  unfold request_records. rewrite !calls_app.
  destruct (negb (length messages =? 0) && (0 <? length messages)); simpl;
    induction kwargs as [|kv kwargs IH]; simpl; auto.
Qed.

Lemma calls_response_records d status content_length error :
  calls (response_records d status content_length error) = [].
Proof.
  unfold response_records.
  destruct content_length as [[|n]|]; destruct error as [[|c e]|]; reflexivity.
Qed.

Lemma events_of_run {A} (m : M A) (w : world) (a : res A) (evs : list event) (n : nat) :
  m w = (a, World (trace w ++ evs) n) -> events_of m w = evs.
Proof.
  intros H. unfold events_of. rewrite H. cbn [snd trace].
  rewrite skipn_app, Nat.sub_diag, skipn_all. reflexivity.
Qed.

Lemma normalise_TypeError_item fields :
  forall v e, fill_fields fields v = Exc e -> is_JSONDecodeError e = false.
Proof.
  induction fields as [|f fields IH]; intros v e H; simpl in H; [discriminate|].
  unfold fill_field in H.
  destruct (py_in f v) as [present|e'] eqn:Hin.
  - cbn [res_bind] in H. destruct present; cbn [negb] in H.
    + cbn [res_bind] in H. eauto.
    + destruct (py_setitem v f (JStr (placeholder f))) as [v'|e'] eqn:Hset.
      * cbn [res_bind] in H. eauto.
      * cbn [res_bind] in H. inversion H; subst.
        destruct v; inversion Hset; reflexivity.
  - cbn [res_bind] in H. inversion H; subst.
    destruct v; inversion Hin; reflexivity.
Qed.

Lemma res_map_Exc {A B} (f : A -> res B) (l : list A) (e : exn) :
  res_map f l = Exc e -> exists x, In x l /\ f x = Exc e.
Proof.
  induction l as [|x l IH]; cbn [res_map]; intros H; [discriminate|].
  destruct (f x) as [y|e'] eqn:Hx; cbn [res_bind] in H.
  - destruct (res_map f l) as [ys|e']; cbn [res_bind] in H; [discriminate|].
    inversion H; subst. destruct (IH eq_refl) as (x' & Hin & Hx').
    exists x'. split; [now right | exact Hx'].
  - inversion H; subst. exists x. split; [now left | exact Hx].
Qed.

Lemma normalise_TypeError v e :
  normalise v = Exc e -> is_JSONDecodeError e = false.
Proof.
  unfold normalise. intros H.
  destruct (py_iter v) as [items|e'] eqn:Hiter; cbn [res_bind] in H.
  - destruct (res_map (fill_fields required_fields) items) as [items'|e'] eqn:Hmap;
      cbn [res_bind] in H; [discriminate|].
    inversion H; subst. apply res_map_Exc in Hmap. destruct Hmap as (x & _ & Hx).
    exact (normalise_TypeError_item _ _ _ Hx).
  - inversion H; subst. destruct v; inversion Hiter; reflexivity.
Qed.

Section Runs.

Variable rt : runtime.
Variable clock : nat -> Z.

Lemma for_each_emit {A} (f : A -> event) (l : list A) (w : world) :
  for_each l (fun x => emit (f x)) w = (Ok tt, World (trace w ++ List.map f l) (reads w)).
Proof.
  revert w. induction l as [|x l IH]; intros w; simpl.
  - unfold ret. rewrite app_nil_r. now destruct w.
  - unfold bind, emit at 1. rewrite IH. cbn [trace reads]. now rewrite <- app_assoc.
Qed.

Lemma log_request_run model messages temperature kwargs w :
  log_request rt clock model messages temperature kwargs w =
  (Ok (clock (reads w)),
   World (trace w ++ request_records rt model messages temperature kwargs) (S (reads w))).
Proof.
  unfold log_request, request_records, logger_info.
  unfold bind at 1 2 3 4 5. unfold emit at 1 2 3. cbn [trace reads].
  destruct (negb (length messages =? 0) && (0 <? length messages)).
  - unfold emit at 1. cbn [trace reads].
    rewrite (for_each_emit (fun kv => Log api_llm INFO (Param (fst kv) (py_format rt (snd kv))))).
    unfold now. cbn [trace reads]. now rewrite <- !app_assoc.
  - unfold ret at 1.
    rewrite (for_each_emit (fun kv => Log api_llm INFO (Param (fst kv) (py_format rt (snd kv))))).
    unfold now. cbn [trace reads]. now rewrite <- !app_assoc.
Qed.

Lemma log_response_run start_time status content_length error w :
  log_response clock start_time status content_length error w =
  (Ok tt,
   World (trace w ++ response_records (clock (reads w) - start_time) status content_length error)
     (S (reads w))).
Proof.
  unfold log_response, response_records, logger_info, logger_error.
  unfold bind, now, emit, ret. cbn [trace reads].
  destruct content_length as [[|n]|]; destruct error as [[|c e]|]; cbn [trace reads];
    now rewrite <- ?app_assoc, ?app_nil_r.
Qed.

End Runs.

Section HandlerRuns.

Variable rt : runtime.
Variable clock : nat -> Z.
Variable cfg : config.
Variable gw : gateway.
Hypothesis Havailable : AISUITE_AVAILABLE cfg = true.
Hypothesis Hclient : client cfg = Some gw.

Ltac run :=
  repeat progress
    (cbv beta iota delta [try_except bind lift ret raise emit logging_error Exception];
     cbn [trace reads];
     rewrite ?log_response_run, ?log_request_run).

Ltac close_run :=
  cbn [trace reads]; eexists; eexists; split;
  [ rewrite <- ?app_assoc; cbn [app]; reflexivity
  | rewrite ?calls_app, ?calls_response_records; reflexivity ].

Lemma parse_failure_run start_time w :
  parse_failure clock start_time w =
  (Ok parse_failure_response,
   World (trace w ++ response_records (clock (reads w) - start_time) (lit "error") None
                       (Some (lit "Gagal memproses respons LLM sebagai JSON")))
     (S (reads w))).
Proof.
  unfold parse_failure. run. reflexivity.
Qed.

Lemma call_and_respond_run messages start_time w :
  let c := {| gc_model := MODEL cfg; gc_messages := messages;
              gc_temperature := lit "0.7"; gc_timeout := 30 |} in
  exists evs n,
    call_and_respond rt clock cfg messages start_time w =
    (Ok (respond rt (gw c)), World (trace w ++ Call c :: evs) n)
    /\ calls evs = [].
Proof.
  intros c. unfold call_and_respond, create. rewrite Hclient. fold c.
  unfold respond. run.
  destruct (gw c) as [result|e]; run; [|close_run].
  unfold parse_and_respond. run.
  destruct (loads rt result) as [v|e1] eqn:Hloads.
  - destruct (normalise v) as [data|e2] eqn:Hnorm; [close_run|].
    rewrite (normalise_TypeError _ _ Hnorm). run. close_run.
  - destruct (is_JSONDecodeError e1) eqn:Hcls; run; [|close_run].
    unfold on_decode_error. destruct result as [text|]; run; [|close_run].
    destruct (re_search json_array_pattern text) as [group0|];
      [|rewrite parse_failure_run; close_run].
    run. destruct (json_loads rt group0) as [data|e3]; run; [close_run|].
    rewrite parse_failure_run. close_run.
Qed.

Lemma guard_passes : guard_fails cfg = false.
Proof. unfold guard_fails. now rewrite Havailable, Hclient. Qed.

Lemma generate_misuse_cases_run request_json w :
  exists evs n,
    generate_misuse_cases rt clock cfg request_json w =
    (Ok (response_of rt cfg request_json), World (trace w ++ evs) n)
    /\ calls evs = calls_of rt cfg request_json.
Proof.
  unfold generate_misuse_cases, response_of, calls_of, intake_of.
  fold (guard_fails cfg). rewrite guard_passes, Hclient. run.
  destruct request_json as [data|e]; cbn [res_bind]; [|close_run].
  destruct (py_get data (lit "useCaseName") (JStr [])) as [use_case_name|e];
    cbn [res_bind]; [|close_run].
  destruct (py_get data (lit "systemName") (JStr (lit "the system"))) as [system_name|e];
    cbn [res_bind]; [|close_run].
  destruct (py_get data (lit "otherUseCases") (JArr [])) as [other_use_cases|e];
    cbn [res_bind]; [|close_run].
  destruct (truthy use_case_name); cbn [negb].
  - destruct (if truthy other_use_cases
              then py_join (lit ", ") other_use_cases
              else Ok (lit "Tidak ada")) as [related|e]; cbn [res_bind]; run; [|close_run].
    match goal with
    | |- context [call_and_respond rt clock cfg ?ms ?st ?w1] =>
        destruct (call_and_respond_run ms st w1) as (evs & n & Hrun & Hcalls);
        rewrite Hrun
    end.
    cbn [trace reads]. eexists. eexists. split.
    + rewrite <- app_assoc. reflexivity.
    + rewrite calls_app, calls_request_records. cbn [calls app]. now rewrite Hcalls.
  - exists [], (reads w). split; [|reflexivity].
    rewrite app_nil_r. now destruct w.
Qed.

Lemma rejected_run request_json w :
  intake_of rt cfg request_json = Rejected ->
  generate_misuse_cases rt clock cfg request_json w = (Ok validation_response, w).
Proof.
  unfold generate_misuse_cases, intake_of.
  fold (guard_fails cfg). rewrite guard_passes. run.
  destruct request_json as [data|e]; cbn [res_bind]; [|discriminate].
  destruct (py_get data (lit "useCaseName") (JStr [])) as [use_case_name|e];
    cbn [res_bind]; [|discriminate].
  destruct (py_get data (lit "systemName") (JStr (lit "the system"))) as [system_name|e];
    cbn [res_bind]; [|discriminate].
  destruct (py_get data (lit "otherUseCases") (JArr [])) as [other_use_cases|e];
    cbn [res_bind]; [|discriminate].
  destruct (truthy use_case_name); cbn [negb]; [|reflexivity].
  destruct (if truthy other_use_cases
            then py_join (lit ", ") other_use_cases
            else Ok (lit "Tidak ada")); cbn [res_bind]; discriminate.
Qed.

End HandlerRuns.

Lemma unavailable_run rt clock cfg request_json w :
  guard_fails cfg = true ->
  generate_misuse_cases rt clock cfg request_json w = (Ok unavailable_response, w).
Proof.
  intros H. unfold generate_misuse_cases. fold (guard_fails cfg). now rewrite H.
Qed.

(** The handler always answers, with the response and the calls the
    functional reading gives, whatever the clock and the world. *)
Lemma handler_run rt clock cfg request_json w :
  exists evs n,
    generate_misuse_cases rt clock cfg request_json w =
    (Ok (response_of rt cfg request_json), World (trace w ++ evs) n)
    /\ calls evs = calls_of rt cfg request_json.
Proof.
  destruct (guard_fails cfg) eqn:G.
  - exists [], (reads w). rewrite (unavailable_run _ _ _ _ _ G).
    unfold response_of, calls_of. rewrite G, app_nil_r. now destruct w.
  - unfold guard_fails in G. apply orb_false_elim in G. destruct G as [Ha Hc].
    apply negb_false_iff in Ha. destruct (client cfg) as [gw|] eqn:Hgw; [|discriminate].
    now apply (generate_misuse_cases_run rt clock cfg gw).
Qed.

Lemma handler_answer rt clock cfg request_json w :
  answer (generate_misuse_cases rt clock cfg request_json) w
  = Ok (response_of rt cfg request_json).
Proof.
  destruct (handler_run rt clock cfg request_json w) as (evs & n & H & _).
  unfold answer. now rewrite H.
Qed.

Lemma handler_calls rt clock cfg request_json w :
  calls (events_of (generate_misuse_cases rt clock cfg request_json) w)
  = calls_of rt cfg request_json.
Proof.
  destruct (handler_run rt clock cfg request_json w) as (evs & n & H & Hc).
  now rewrite (events_of_run _ _ _ _ _ H).
Qed.

Lemma calls_of_accepted rt cfg request_json c :
  In c (calls_of rt cfg request_json) ->
  guard_fails cfg = false /\ intake_of rt cfg request_json = Accepted c.
Proof.
  unfold calls_of. destruct (guard_fails cfg); [intros []|].
  destruct (intake_of rt cfg request_json) as [e| |c']; cbn [In]; intros H.
  - destruct H.
  - destruct H.
  - destruct H as [->|[]]. now split.
Qed.

Lemma response_of_accepted rt cfg request_json c r :
  In c (calls_of rt cfg request_json) -> answers cfg c r ->
  response_of rt cfg request_json = respond rt r.
Proof.
  intros Hin (gw & Hgw & Hr). apply calls_of_accepted in Hin. destruct Hin as [G Hi].
  unfold response_of. now rewrite G, Hi, Hgw, Hr.
Qed.

Lemma respond_status rt r : status_code (respond rt r) = 200.
Proof.
  unfold respond. destruct r as [result|e]; [|reflexivity].
  destruct (loads rt result) as [v|e].
  - now destruct (normalise v).
  - destruct (is_JSONDecodeError e); [|reflexivity].
    destruct result as [text|]; [|reflexivity].
    destruct (re_search json_array_pattern text) as [m|]; [|reflexivity].
    now destruct (json_loads rt m).
Qed.

Lemma soft_error_gateway e : soft_error (gateway_error_response e).
Proof. repeat split. Qed.

Lemma soft_error_parse_failure : soft_error parse_failure_response.
Proof. repeat split. Qed.

Lemma available_guard cfg : available cfg -> guard_fails cfg = false.
Proof.
  intros [Ha [gw Hgw]]. unfold guard_fails. now rewrite Ha, Hgw.
Qed.

(** ** The error paths of the handler *)

(** C5: when the LLM integration is absent (the availability flag is
    off or there is no client), the handler answers 503 with status
    "error" for every request, also for one whose body cannot be read,
    and leaves the world as it was: nothing is validated, built, logged
    or sent, and the clock is not read. *)
Theorem unavailable_fast_fail rt clock cfg request_json w :
  AISUITE_AVAILABLE cfg = false \/ client cfg = None ->
  generate_misuse_cases rt clock cfg request_json w = (Ok unavailable_response, w)
  /\ status_code unavailable_response = 503
  /\ field "status" unavailable_response = Some (JStr (lit "error")).
Proof.
  intros H. split; [|split; reflexivity].
  apply unavailable_run. unfold guard_fails.
  destruct H as [-> | ->]; [reflexivity | apply orb_true_r].
Qed.

Lemma unavailable_fast_fail_witness :
  generate_misuse_cases Reference.python Samples.midnight Samples.unconfigured
    (Ok Samples.login_request) Samples.fresh
  = (Ok unavailable_response, Samples.fresh)
  /\ status_code unavailable_response = 503
  /\ field "status" unavailable_response = Some (JStr (lit "error")).
Proof.
  apply unavailable_fast_fail. left. reflexivity.
Defined.

(** C10: with the LLM integration available, a body that is valid JSON
    but no object (an array, a string, a number, a boolean, null) gets
    the 500 response of the unexpected-error path with status "error",
    not the 400 of the validation, and no gateway call is made. *)
Theorem non_object_body_is_unexpected rt clock cfg data w :
  available cfg ->
  is_object data = false ->
  exists resp,
    answer (generate_misuse_cases rt clock cfg (Ok data)) w = Ok resp
    /\ status_code resp = 500
    /\ status_code resp <> 400
    /\ field "status" resp = Some (JStr (lit "error"))
    /\ calls (events_of (generate_misuse_cases rt clock cfg (Ok data)) w) = [].
Proof.
  intros Hav Hobj. apply available_guard in Hav.
  rewrite handler_answer, handler_calls. unfold response_of, calls_of, intake_of.
  rewrite Hav. cbn [res_bind].
  destruct data; try discriminate; cbn [py_get res_bind];
    (eexists; split; [reflexivity|]; repeat split; discriminate).
Qed.

Lemma non_object_body_is_unexpected_witness :
  is_object (JArr [JStr (lit "Login")]) = false
  /\ exists resp,
       answer (generate_misuse_cases Reference.python Samples.midnight
                 (Samples.configured (Samples.completes_with "[]"))
                 (Ok (JArr [JStr (lit "Login")]))) Samples.fresh = Ok resp
       /\ status_code resp = 500
       /\ status_code resp <> 400
       /\ field "status" resp = Some (JStr (lit "error"))
       /\ calls (events_of (generate_misuse_cases Reference.python Samples.midnight
                              (Samples.configured (Samples.completes_with "[]"))
                              (Ok (JArr [JStr (lit "Login")]))) Samples.fresh) = [].
Proof.
  split; [reflexivity|].
  apply non_object_body_is_unexpected; [|reflexivity].
  split; [reflexivity|]. eexists. reflexivity.
Defined.

(** C9: whenever the handler answers with HTTP 500, the body has status
    "error", a message, and a data field that is the empty array. *)
Theorem unexpected_error_has_empty_data rt clock cfg request_json w resp :
  answer (generate_misuse_cases rt clock cfg request_json) w = Ok resp ->
  status_code resp = 500 ->
  field "status" resp = Some (JStr (lit "error"))
  /\ (exists message, field "message" resp = Some (JStr message))
  /\ field "data" resp = Some (JArr []).
Proof.
  rewrite handler_answer. intros H. inversion H as [Hr]. clear H.
  unfold response_of. destruct (guard_fails cfg); [discriminate|].
  destruct (intake_of rt cfg request_json) as [e| |c].
  - intros _. split; [reflexivity|]. split; [|reflexivity]. eexists. reflexivity.
  - discriminate.
  - destruct (client cfg) as [gw|]; [|discriminate].
    rewrite respond_status. discriminate.
Qed.

Lemma unexpected_error_has_empty_data_witness :
  exists resp,
    answer (generate_misuse_cases Reference.python Samples.midnight
              (Samples.configured Samples.times_out) (Ok (JInt 7))) Samples.fresh = Ok resp
    /\ status_code resp = 500
    /\ field "status" resp = Some (JStr (lit "error"))
    /\ (exists message, field "message" resp = Some (JStr message))
    /\ field "data" resp = Some (JArr []).
Proof.
  eexists. split; [reflexivity|]. split; [reflexivity|].
  apply (unexpected_error_has_empty_data Reference.python Samples.midnight
           (Samples.configured Samples.times_out) (Ok (JInt 7)) Samples.fresh);
    reflexivity.
Defined.

(** C1: when the handler made the gateway call and the call raised, or
    the call returned a text that neither stage can parse, the handler
    answers HTTP 200 with status "error" and an empty data array. *)
Theorem gateway_and_parse_failures_are_soft rt clock cfg request_json w c :
  In c (calls (events_of (generate_misuse_cases rt clock cfg request_json) w)) ->
  (exists e, answers cfg c (Failed e))
  \/ (exists text, answers cfg c (Completed (Some text)) /\ unparseable rt text) ->
  exists resp,
    answer (generate_misuse_cases rt clock cfg request_json) w = Ok resp
    /\ soft_error resp.
Proof.
  rewrite handler_calls, handler_answer. intros Hin H.
  eexists. split; [reflexivity|].
  destruct H as [[e He] | (text & Ht & [e He] & Hsearch)].
  - rewrite (response_of_accepted _ _ _ _ _ Hin He). apply soft_error_gateway.
  - rewrite (response_of_accepted _ _ _ _ _ Hin Ht).
    unfold respond. cbn [loads]. rewrite He.
    destruct (is_JSONDecodeError e); [|apply soft_error_gateway].
    destruct Hsearch as [-> | (m & e' & -> & ->)]; apply soft_error_parse_failure.
Qed.

Lemma gateway_and_parse_failures_are_soft_witness :
  exists c e,
    In c (calls (events_of (generate_misuse_cases Reference.python Samples.midnight
                              (Samples.configured Samples.times_out)
                              (Ok Samples.login_request)) Samples.fresh))
    /\ answers (Samples.configured Samples.times_out) c (Failed e)
    /\ exists resp,
         answer (generate_misuse_cases Reference.python Samples.midnight
                   (Samples.configured Samples.times_out)
                   (Ok Samples.login_request)) Samples.fresh = Ok resp
         /\ soft_error resp.
Proof.
  eexists. eexists.
  split; [vm_compute; left; reflexivity|].
  split; [eexists; split; reflexivity|].
  eapply gateway_and_parse_failures_are_soft.
  - vm_compute. left. reflexivity.
  - left. eexists. eexists. split; reflexivity.
Defined.

(** C7: the response (status, message, data) and the gateway call of a
    request are the same in any two runs, whatever the clock readings,
    the log written so far and the number of earlier clock readings:
    with the client a deterministic stub, the handler is a function of
    the request. *)
Theorem pipeline_deterministic rt cfg request_json clock1 clock2 w1 w2 :
  answer (generate_misuse_cases rt clock1 cfg request_json) w1
  = answer (generate_misuse_cases rt clock2 cfg request_json) w2
  /\ calls (events_of (generate_misuse_cases rt clock1 cfg request_json) w1)
     = calls (events_of (generate_misuse_cases rt clock2 cfg request_json) w2).
Proof.
  now rewrite !handler_answer, !handler_calls.
Qed.

(** ** Validation *)

(** C3, as the code has it: with the LLM integration available, a
    request object whose useCaseName is absent or the empty string gets
    HTTP 400 with status "error", and the world stays as it was: no
    gateway call is made and nothing is logged. *)
Theorem missing_use_case_name_rejected rt clock cfg kvs w :
  available cfg ->
  assoc_get (lit "useCaseName") kvs = None
  \/ assoc_get (lit "useCaseName") kvs = Some (JStr []) ->
  generate_misuse_cases rt clock cfg (Ok (JObj kvs)) w = (Ok validation_response, w)
  /\ status_code validation_response = 400
  /\ field "status" validation_response = Some (JStr (lit "error"))
  /\ calls (events_of (generate_misuse_cases rt clock cfg (Ok (JObj kvs))) w) = [].
Proof.
  intros [Ha [gw Hgw]] Hname.
  assert (Hrej : intake_of rt cfg (Ok (JObj kvs)) = Rejected).
  { unfold intake_of. cbn [res_bind py_get].
    destruct Hname as [-> | ->]; cbn [res_bind];
      destruct (assoc_get (lit "systemName") kvs); cbn [res_bind];
      destruct (assoc_get (lit "otherUseCases") kvs); reflexivity. }
  split; [now apply (rejected_run rt clock cfg gw)|].
  split; [reflexivity|]. split; [reflexivity|].
  rewrite handler_calls. unfold calls_of. rewrite Hrej. now destruct (guard_fails cfg).
Qed.

Lemma missing_use_case_name_rejected_witness :
  available (Samples.configured (Samples.completes_with "[]"))
  /\ assoc_get (lit "useCaseName") [(lit "systemName", JStr (lit "Banking App"))] = None
  /\ generate_misuse_cases Reference.python Samples.midnight
       (Samples.configured (Samples.completes_with "[]"))
       (Ok Samples.nameless_request) Samples.fresh
     = (Ok validation_response, Samples.fresh).
Proof.
  assert (Ha : available (Samples.configured (Samples.completes_with "[]"))).
  { split; [reflexivity|]. eexists. reflexivity. }
  split; [exact Ha|]. split; [reflexivity|].
  apply (missing_use_case_name_rejected Reference.python Samples.midnight
           (Samples.configured (Samples.completes_with "[]"))
           [(lit "systemName", JStr (lit "Banking App"))] Samples.fresh Ha).
  left. reflexivity.
Defined.

(** A useCaseName of three spaces is whitespace only, and the request
    is not rejected: the handler calls the gateway and answers 200. *)
Lemma whitespace_use_case_name_reaches_gateway :
  assoc_get (lit "useCaseName") [(lit "useCaseName", JStr (lit "   "))]
    = Some (JStr (lit "   "))
  /\ forallb is_space (lit "   ") = true
  /\ exists resp c,
       answer (generate_misuse_cases Reference.python Samples.midnight
                 (Samples.configured (Samples.completes_with "[]"))
                 (Ok Samples.blank_request)) Samples.fresh = Ok resp
       /\ status_code resp = 200
       /\ status_code resp <> 400
       /\ calls (events_of (generate_misuse_cases Reference.python Samples.midnight
                              (Samples.configured (Samples.completes_with "[]"))
                              (Ok Samples.blank_request)) Samples.fresh) = [c].
Proof.
  split; [reflexivity|]. split; [reflexivity|].
  eexists. eexists.
  split; [vm_compute; reflexivity|].
  split; [reflexivity|]. split; [discriminate|].
  vm_compute. reflexivity.
Qed.

(** ** The request logger *)

Lemma firstn_short {A} (n : nat) (l : list A) : length l <= n -> firstn n l = l.
Proof.
  revert n. induction l as [|x l IH]; intros n H.
  - now destruct n.
  - destruct n as [|n]; simpl in H; [lia|]. simpl. f_equal. apply IH. lia.
Qed.

(** C8, as the code has it: the preview [log_request] writes is the
    first 100 characters of the content of the last message, followed
    by the marker "..." when the content has more than 100 characters.
    It holds at most 100 characters of the content and is at most 103
    characters long; a content of at most 100 characters is logged
    whole. *)
Theorem preview_is_truncated rt clock model messages temperature kwargs w logger lv p :
  In (Log logger lv (LastMessagePreview p))
     (events_of (log_request rt clock model messages temperature kwargs) w) ->
  let last_msg := message_get (lit "content") [] (last messages []) in
  p = firstn 100 last_msg ++ (if 100 <? length last_msg then lit "..." else [])
  /\ length p <= 103
  /\ (length last_msg <= 100 -> p = last_msg)
  /\ (100 < length last_msg -> length p = 103).
Proof.
  rewrite (events_of_run _ _ _ _ _ (log_request_run rt clock model messages temperature kwargs w)).
  intros Hin last_msg. unfold request_records in Hin. fold last_msg in Hin.
  assert (Hp : p = preview_of last_msg).
  { apply in_app_or in Hin. destruct Hin as [Hin|Hin].
    - cbn [In] in Hin. destruct Hin as [H|[H|[H|[]]]]; discriminate.
    - apply in_app_or in Hin. destruct Hin as [Hin|Hin].
      + destruct (negb (length messages =? 0) && (0 <? length messages)).
        * destruct Hin as [H|[]]. now inversion H.
        * destruct Hin.
      + apply in_map_iff in Hin. destruct Hin as (kv & H & _). discriminate. }
  subst p. unfold preview_of. split; [reflexivity|].
  destruct (100 <? length last_msg) eqn:Hlen.
  - apply Nat.ltb_lt in Hlen. rewrite length_app, length_firstn.
    change (length (lit "...")) with 3. repeat split; lia.
  - apply Nat.ltb_ge in Hlen. rewrite app_nil_r, length_firstn.
    repeat split; [lia | intros _; now apply firstn_short | lia].
Qed.

Lemma preview_is_truncated_witness :
  exists p,
    In (Log api_llm INFO (LastMessagePreview p))
       (events_of (log_request Reference.python Samples.midnight None
                     [[(lit "content", lit "Use Case: Login")]] (lit "0.7") []) Samples.fresh)
    /\ p = lit "Use Case: Login"
    /\ length p <= 103.
Proof.
  eexists. split; [vm_compute; do 3 right; left; reflexivity|].
  split; [reflexivity|].
  eapply (preview_is_truncated Reference.python Samples.midnight None
            [[(lit "content", lit "Use Case: Login")]] (lit "0.7") [] Samples.fresh).
  vm_compute. do 3 right. left. reflexivity.
Defined.

(** A last message of 101 characters is logged with a preview of 103
    characters; so is the user prompt of an accepted request. *)
Lemma long_message_preview_exceeds_100 :
  (exists p,
     In (Log api_llm INFO (LastMessagePreview p))
        (events_of (log_request Reference.python Samples.midnight None
                      [Samples.long_message] (lit "0.7") []) Samples.fresh)
     /\ length p = 103 /\ ~ length p <= 100)
  /\ (exists p,
        In (Log api_llm INFO (LastMessagePreview p))
           (events_of (generate_misuse_cases Reference.python Samples.midnight
                         (Samples.configured (Samples.completes_with "[]"))
                         (Ok Samples.login_request)) Samples.fresh)
        /\ length p = 103 /\ ~ length p <= 100).
Proof.
  split.
  - eexists. split; [vm_compute; do 3 right; left; reflexivity|].
    split; [reflexivity | vm_compute; lia].
  - eexists. split; [vm_compute; do 3 right; left; reflexivity|].
    split; [reflexivity | vm_compute; lia].
Qed.

(** ** The recovery parser *)

(** C6: once the gateway call has returned a text, the handler decodes
    the whole text first and, when that succeeds, answers from the
    decoded value alone.  Only when the decoding fails with a decode
    error does it search the text.  Either no substring has the array
    shape and the answer is the parse-failure response; or the search
    gives the first substring with the shape, its span taken greedily
    (there is exactly one such substring), that substring alone is
    decoded, and the answer is the success response with the decoded
    value as it is or, when it does not decode, the parse-failure
    response.  A failure of the first decoding that is no decode error
    is not rescued. *)
Theorem recovery_parser_stages rt clock cfg request_json w c text :
  In c (calls (events_of (generate_misuse_cases rt clock cfg request_json) w)) ->
  answers cfg c (Completed (Some text)) ->
  let result := answer (generate_misuse_cases rt clock cfg request_json) w in
  (forall v, json_loads rt text = Ok v ->
     result = Ok match normalise v with
                 | Ok data => Response 200 (success_body data)
                 | Exc e => gateway_error_response e
                 end)
  /\ (forall e, json_loads rt text = Exc e -> is_JSONDecodeError e = true ->
      (re_search json_array_pattern text = None
       /\ no_match text
       /\ result = Ok parse_failure_response)
      \/ (exists m,
            re_search json_array_pattern text = Some m
            /\ first_greedy_match text m
            /\ (forall m', first_greedy_match text m' -> m' = m)
            /\ result = Ok match json_loads rt m with
                           | Ok data => Response 200 (success_body data)
                           | Exc _ => parse_failure_response
                           end))
  /\ (forall e, json_loads rt text = Exc e -> is_JSONDecodeError e = false ->
      result = Ok (gateway_error_response e)).
Proof.
  intros Hin Hans result. subst result.
  rewrite handler_calls in Hin. rewrite handler_answer.
  rewrite (response_of_accepted _ _ _ _ _ Hin Hans).
  unfold respond. cbn [loads]. repeat split.
  - intros v ->. reflexivity.
  - intros e -> ->.
    destruct (re_search json_array_pattern text) as [m|] eqn:Hsearch.
    + right. exists m. pose proof (re_search_first_greedy _ _ Hsearch) as Hfirst.
      repeat split; try assumption.
      intros m' Hm'. exact (first_greedy_match_unique _ _ _ Hm' Hfirst).
    + left. repeat split. now apply re_search_no_match.
  - intros e -> ->. reflexivity.
Qed.

Lemma recovery_parser_stages_witness :
  In Samples.login_call
     (calls (events_of (generate_misuse_cases Reference.python Samples.midnight
                          (Samples.configured (Samples.completes_with Samples.wrapped_reply))
                          (Ok Samples.login_request)) Samples.fresh))
  /\ answers (Samples.configured (Samples.completes_with Samples.wrapped_reply))
       Samples.login_call (Completed (Some (lit Samples.wrapped_reply)))
  /\ first_greedy_match (lit Samples.wrapped_reply) (lit "[{`name`:`X`}]")
  /\ answer (generate_misuse_cases Reference.python Samples.midnight
               (Samples.configured (Samples.completes_with Samples.wrapped_reply))
               (Ok Samples.login_request)) Samples.fresh
     = Ok (Response 200 (success_body (JArr [JObj [(lit "name", JStr (lit "X"))]]))).
Proof.
  assert (Hin : In Samples.login_call
     (calls (events_of (generate_misuse_cases Reference.python Samples.midnight
                          (Samples.configured (Samples.completes_with Samples.wrapped_reply))
                          (Ok Samples.login_request)) Samples.fresh)))
    by (vm_compute; left; reflexivity).
  assert (Hans : answers (Samples.configured (Samples.completes_with Samples.wrapped_reply))
                   Samples.login_call (Completed (Some (lit Samples.wrapped_reply))))
    by (eexists; split; reflexivity).
  split; [exact Hin|]. split; [exact Hans|].
  destruct (recovery_parser_stages Reference.python Samples.midnight _ _ _ _ _ Hin Hans)
    as (_ & Hrescue & _).
  specialize (Hrescue (Exn JSONDecodeError (lit "Expecting value")) eq_refl eq_refl).
  assert (Hs : re_search json_array_pattern (lit Samples.wrapped_reply)
               = Some (lit "[{`name`:`X`}]")) by reflexivity.
  destruct Hrescue as [(Hnone & _) | (m & Hsome & Hfirst & _ & Hanswer)].
  - rewrite Hs in Hnone. discriminate.
  - rewrite Hs in Hsome. inversion Hsome as [Hm]. rewrite <- Hm in Hfirst, Hanswer.
    split; [exact Hfirst|]. rewrite Hanswer. reflexivity.
Defined.

(** ** The normalisation of the decoded array *)

Lemma str_eqb_eq (a b : str) : str_eqb a b = true <-> a = b.
Proof.
  revert b. induction a as [|x a IH]; intros [|y b]; simpl; split; intros H;
    try reflexivity; try discriminate.
  - apply andb_true_iff in H. destruct H as [Hx Ha].
    apply N.eqb_eq in Hx. apply IH in Ha. now subst.
  - inversion H; subst. rewrite N.eqb_refl. now apply IH.
Qed.

Lemma str_eqb_neq (a b : str) : a <> b -> str_eqb a b = false.
Proof.
  intros H. destruct (str_eqb a b) eqn:E; [|reflexivity].
  apply str_eqb_eq in E. contradiction.
Qed.

Lemma assoc_get_app (k : str) (kvs more : list (str * json)) :
  assoc_get k (kvs ++ more) =
  match assoc_get k kvs with
  | Some v => Some v
  | None => assoc_get k more
  end.
Proof.
  induction kvs as [|[k' v'] kvs IH]; simpl; [reflexivity|].
  now destruct (str_eqb k k').
Qed.

Lemma assoc_set_absent (k : str) (v : json) (kvs : list (str * json)) :
  has_key k kvs = false -> assoc_set k v kvs = kvs ++ [(k, v)].
Proof.
  unfold has_key. induction kvs as [|[k' v'] kvs IH]; simpl; [reflexivity|].
  destruct (str_eqb k k'); [discriminate|]. intros H. now rewrite IH.
Qed.

Lemma has_key_app_other (g f : str) (v : json) (kvs : list (str * json)) :
  g <> f -> has_key g (kvs ++ [(f, v)]) = has_key g kvs.
Proof.
  intros H. unfold has_key. rewrite assoc_get_app.
  destruct (assoc_get g kvs); [reflexivity|].
  simpl. now rewrite (str_eqb_neq _ _ H).
Qed.

Lemma fill_field_object (kvs : list (str * json)) (f : str) :
  fill_field (JObj kvs) f =
  Ok (JObj (if has_key f kvs then kvs else kvs ++ [placeholder_entry f])).
Proof.
  unfold fill_field. cbn [py_in res_bind].
  destruct (has_key f kvs) eqn:H; cbn [negb]; [reflexivity|].
  cbn [py_setitem]. now rewrite (assoc_set_absent _ _ _ H).
Qed.

Lemma fill_fields_object (fields : list str) :
  NoDup fields ->
  forall kvs,
    fill_fields fields (JObj kvs) =
    Ok (JObj (kvs ++ List.map placeholder_entry (filter (missing_in kvs) fields))).
Proof.
  induction 1 as [|f fs Hf Hfs IH]; intros kvs; cbn [fill_fields].
  - simpl. now rewrite app_nil_r.
  - rewrite fill_field_object. cbn [res_bind]. rewrite IH. cbn [filter].
    assert (Hm : missing_in kvs f = negb (has_key f kvs)) by reflexivity.
    rewrite Hm. destruct (has_key f kvs) eqn:Hk; cbn [negb].
    + reflexivity.
    + rewrite <- app_assoc. cbn [app List.map].
      apply (f_equal (fun l => Ok (JObj (kvs ++ placeholder_entry f
                                           :: List.map placeholder_entry l)))).
      apply filter_ext_in. intros g Hg. unfold missing_in, placeholder_entry.
      rewrite has_key_app_other; [reflexivity|].
      intros ->. contradiction.
Qed.

Lemma required_fields_NoDup : NoDup required_fields.
Proof.
  unfold required_fields. repeat constructor; cbv; intuition discriminate.
Qed.

Lemma normalise_objects (objs : list (list (str * json))) :
  normalise (JArr (List.map JObj objs)) =
  Ok (JArr (List.map (fun kvs => JObj (fill_missing kvs)) objs)).
Proof.
  unfold normalise. cbn [py_iter res_bind].
  assert (H : res_map (fill_fields required_fields) (List.map JObj objs)
              = Ok (List.map (fun kvs => JObj (fill_missing kvs)) objs)).
  { induction objs as [|kvs objs IH]; cbn [List.map res_map]; [reflexivity|].
    rewrite (fill_fields_object _ required_fields_NoDup). cbn [res_bind].
    rewrite IH. reflexivity. }
  now rewrite H.
Qed.

(** What [fill_missing] keeps and what it adds. *)
Lemma fill_missing_keeps kvs k v :
  assoc_get k kvs = Some v -> assoc_get k (fill_missing kvs) = Some v.
Proof.
  intros H. unfold fill_missing. now rewrite assoc_get_app, H.
Qed.

Lemma assoc_get_placeholders (f : str) (fs : list str) :
  In f fs -> assoc_get f (List.map placeholder_entry fs) = Some (JStr (placeholder f)).
Proof.
  induction fs as [|g fs IH]; intros H; [destruct H|].
  cbn [List.map assoc_get placeholder_entry].
  destruct (str_eqb f g) eqn:E.
  - apply str_eqb_eq in E. now subst.
  - destruct H as [->|H]; [|now apply IH].
    rewrite (proj2 (str_eqb_eq f f) eq_refl) in E. discriminate.
Qed.

Lemma fill_missing_adds kvs f :
  In f required_fields -> assoc_get f kvs = None ->
  assoc_get f (fill_missing kvs) = Some (JStr (placeholder f)).
Proof.
  intros Hf Hnone. unfold fill_missing. rewrite assoc_get_app, Hnone.
  apply assoc_get_placeholders. apply filter_In. split; [exact Hf|].
  unfold missing_in, has_key. now rewrite Hnone.
Qed.

Lemma as_strs_ok (l : list json) :
  forallb is_str l = true -> forall i, exists ss, as_strs i l = Ok ss.
Proof.
  induction l as [|v l IH]; intros H i; [now exists []|].
  cbn [forallb] in H. apply andb_true_iff in H. destruct H as [Hv Hl].
  destruct v; try discriminate. cbn [as_strs].
  destruct (IH Hl (S i)) as [ss ->]. cbn [res_bind]. eexists. reflexivity.
Qed.

Lemma valid_request_accepted rt cfg data :
  valid_request data = true -> exists c, intake_of rt cfg (Ok data) = Accepted c.
Proof.
  destruct data as [| | | | | |kvs]; try discriminate.
  unfold valid_request, intake_of. cbn [res_bind py_get]. intros H.
  apply andb_true_iff in H. destruct H as [H Hother].
  apply andb_true_iff in H. destruct H as [Hname _].
  destruct (assoc_get (lit "useCaseName") kvs) as [[| | | |[|c s]| |]|]; try discriminate.
  cbn [res_bind]. destruct (assoc_get (lit "systemName") kvs); cbn [res_bind].
  - destruct (assoc_get (lit "otherUseCases") kvs) as [[| | | | |l|]|];
      try discriminate; cbn [res_bind truthy length Nat.eqb negb].
    + destruct l as [|x l]; cbn [truthy length Nat.eqb negb res_bind].
      * eexists. reflexivity.
      * unfold py_join. cbn [py_iter].
        destruct (as_strs_ok _ Hother 0) as [ss ->]. cbn [res_bind].
        eexists. reflexivity.
    + eexists. reflexivity.
  - destruct (assoc_get (lit "otherUseCases") kvs) as [[| | | | |l|]|];
      try discriminate; cbn [res_bind truthy length Nat.eqb negb].
    + destruct l as [|x l]; cbn [truthy length Nat.eqb negb res_bind].
      * eexists. reflexivity.
      * unfold py_join. cbn [py_iter].
        destruct (as_strs_ok _ Hother 0) as [ss ->]. cbn [res_bind].
        eexists. reflexivity.
    + eexists. reflexivity.
Qed.

Lemma is_prefix_app (f b : str) : is_prefix f (f ++ b) = true.
Proof.
  induction f as [|c f IH]; simpl; [reflexivity|]. now rewrite N.eqb_refl.
Qed.

Lemma is_substring_app (a f b : str) : is_substring f (a ++ f ++ b) = true.
Proof.
  induction a as [|c a IH]; simpl.
  - destruct (f ++ b) eqn:E; simpl; rewrite <- E, is_prefix_app; reflexivity.
  - rewrite IH. apply orb_true_r.
Qed.

(** The placeholder is not empty and holds the name of its field. *)
Lemma placeholder_names_field (f : str) :
  placeholder f <> [] /\ is_substring f (placeholder f) = true.
Proof.
  unfold placeholder. split; [discriminate | apply is_substring_app].
Qed.

Lemma res_map_Ok {A B} (f : A -> res B) (l : list A) (l' : list B) :
  res_map f l = Ok l' -> Forall2 (fun x y => f x = Ok y) l l'.
Proof.
  revert l'. induction l as [|x l IH]; cbn [res_map]; intros l' H.
  - inversion H. constructor.
  - destruct (f x) as [y|e] eqn:Hx; cbn [res_bind] in H; [|discriminate].
    destruct (res_map f l) as [ys|e]; cbn [res_bind] in H; [|discriminate].
    inversion H; subst. constructor; [exact Hx | now apply IH].
Qed.

Lemma fill_fields_non_object (fields : list str) :
  forall v v', is_object v = false -> fill_fields fields v = Ok v' -> v' = v.
Proof.
  induction fields as [|f fs IH]; intros v v' Hv H; cbn [fill_fields] in H.
  - now inversion H.
  - unfold fill_field in H. destruct (py_in f v) as [present|e]; cbn [res_bind] in H;
      [|discriminate].
    destruct present; cbn [negb res_bind] in H; [now apply IH|].
    destruct v; try discriminate; cbn [py_setitem res_bind] in H; discriminate.
Qed.

(** On the strict path every object of the answered array has the four
    fields, the missing ones with their placeholder. *)
Lemma strict_path_fields_present (l l' : list json) :
  normalise (JArr l) = Ok (JArr l') ->
  forall kvs, In (JObj kvs) l' ->
  forall f, In f required_fields -> has_key f kvs = true.
Proof.
  unfold normalise. cbn [py_iter res_bind]. intros H.
  destruct (res_map (fill_fields required_fields) l) as [items|e] eqn:Hmap;
    cbn [res_bind] in H; [|discriminate].
  inversion H; subst items. apply res_map_Ok in Hmap.
  intros kvs Hin f Hf.
  induction Hmap as [|x y l l' Hxy Hmap IH]; [destruct Hin|].
  destruct Hin as [->|Hin]; [|now apply IH].
  destruct x as [| | | | | |kvs0];
    try (apply fill_fields_non_object in Hxy; [discriminate | reflexivity]).
  rewrite (fill_fields_object _ required_fields_NoDup) in Hxy.
  fold (fill_missing kvs0) in Hxy.
  assert (Hk : kvs = fill_missing kvs0) by congruence. subst kvs. unfold has_key.
  destruct (assoc_get f kvs0) as [v|] eqn:Hget.
  - now rewrite (fill_missing_keeps _ _ _ Hget).
  - now rewrite (fill_missing_adds _ _ Hf Hget).
Qed.

(** C4, as the code has it: for a valid request the handler makes one
    gateway call, and when the text of the reply strictly decodes as an
    array of objects, the response has status "success" and its data is
    that array with each object completed by [fill_missing]: as many
    elements, in the same order, every field of an object kept with its
    value and followed by the placeholders of the required fields it
    lacks. *)
Theorem strict_array_of_objects_is_normalised rt clock cfg data w :
  available cfg ->
  valid_request data = true ->
  exists c,
    calls (events_of (generate_misuse_cases rt clock cfg (Ok data)) w) = [c]
    /\ forall text objs,
         answers cfg c (Completed (Some text)) ->
         json_loads rt text = Ok (JArr (List.map JObj objs)) ->
         answer (generate_misuse_cases rt clock cfg (Ok data)) w
         = Ok (Response 200
                 (success_body
                    (JArr (List.map (fun kvs => JObj (fill_missing kvs)) objs))))
         /\ length (List.map (fun kvs => JObj (fill_missing kvs)) objs) = length objs
         /\ (forall kvs k v, In kvs objs -> assoc_get k kvs = Some v ->
                             assoc_get k (fill_missing kvs) = Some v)
         /\ (forall kvs f, In kvs objs -> In f required_fields ->
                           assoc_get f kvs = None ->
                           assoc_get f (fill_missing kvs) = Some (JStr (placeholder f))).
Proof.
  intros Hav Hvalid.
  destruct (valid_request_accepted rt cfg data Hvalid) as [c Hc].
  pose proof (available_guard _ Hav) as G.
  assert (Hcalls : calls_of rt cfg (Ok data) = [c]).
  { unfold calls_of. now rewrite G, Hc. }
  exists c. rewrite handler_calls. split; [exact Hcalls|].
  intros text objs Hans Hloads. rewrite handler_answer.
  rewrite (response_of_accepted rt cfg (Ok data) c (Completed (Some text)));
    [|rewrite Hcalls; now left | exact Hans].
  unfold respond. cbn [loads]. rewrite Hloads, normalise_objects.
  split; [reflexivity|]. split; [apply length_map|]. split.
  - intros kvs k v _. apply fill_missing_keeps.
  - intros kvs f _. apply fill_missing_adds.
Qed.

Lemma strict_array_of_objects_is_normalised_witness :
  available (Samples.configured (Samples.completes_with "[{`name`:`X`}]"))
  /\ valid_request Samples.login_request = true
  /\ exists c,
       calls (events_of (generate_misuse_cases Reference.python Samples.midnight
                           (Samples.configured (Samples.completes_with "[{`name`:`X`}]"))
                           (Ok Samples.login_request)) Samples.fresh) = [c]
       /\ answer (generate_misuse_cases Reference.python Samples.midnight
                    (Samples.configured (Samples.completes_with "[{`name`:`X`}]"))
                    (Ok Samples.login_request)) Samples.fresh
          = Ok (Response 200
                  (success_body
                     (JArr [JObj (fill_missing [(lit "name", JStr (lit "X"))])]))).
Proof.
  assert (Hav : available (Samples.configured (Samples.completes_with "[{`name`:`X`}]"))).
  { split; [reflexivity|]. eexists. reflexivity. }
  split; [exact Hav|]. split; [reflexivity|].
  destruct (strict_array_of_objects_is_normalised Reference.python Samples.midnight
              (Samples.configured (Samples.completes_with "[{`name`:`X`}]"))
              Samples.login_request Samples.fresh Hav eq_refl) as (c & Hcalls & Hthen).
  exists c. split; [exact Hcalls|].
  apply (Hthen (lit "[{`name`:`X`}]") [[(lit "name", JStr (lit "X"))]]).
  - eexists. split; reflexivity.
  - reflexivity.
Defined.

(** The reply "[1]" strictly decodes as an array, and the response to a
    valid request is the soft error, not a success. *)
Lemma strict_array_of_numbers_is_soft_error :
  valid_request Samples.login_request = true
  /\ json_loads Reference.python (lit "[1]") = Ok (JArr [JInt 1])
  /\ exists resp,
       answer (generate_misuse_cases Reference.python Samples.midnight
                 (Samples.configured (Samples.completes_with "[1]"))
                 (Ok Samples.login_request)) Samples.fresh = Ok resp
       /\ field "status" resp = Some (JStr (lit "error"))
       /\ field "status" resp <> Some (JStr (lit "success"))
       /\ field "data" resp = Some (JArr []).
Proof.
  split; [reflexivity|]. split; [reflexivity|].
  eexists. split; [vm_compute; reflexivity|].
  split; [reflexivity|]. split; [discriminate | reflexivity].
Qed.

(** C2: the claim fails on the rescue path.  The reply
    "Hasil: [{"name":"X"}] selesai" does not decode, the search finds
    the array in it, and the response has status "success" with the
    object as it was decoded, without description, actor and impact.
    The same array sent alone goes through the strict path and is
    answered with the three placeholders. *)
Theorem rescued_array_is_not_normalised :
  json_loads Reference.python (lit Samples.wrapped_reply)
    = Exc (Exn JSONDecodeError (lit "Expecting value"))
  /\ re_search json_array_pattern (lit Samples.wrapped_reply) = Some (lit "[{`name`:`X`}]")
  /\ answer (generate_misuse_cases Reference.python Samples.midnight
               (Samples.configured (Samples.completes_with Samples.wrapped_reply))
               (Ok Samples.login_request)) Samples.fresh
     = Ok (Response 200 (success_body (JArr [JObj [(lit "name", JStr (lit "X"))]])))
  /\ has_key (lit "description") [(lit "name", JStr (lit "X"))] = false
  /\ answer (generate_misuse_cases Reference.python Samples.midnight
               (Samples.configured (Samples.completes_with "[{`name`:`X`}]"))
               (Ok Samples.login_request)) Samples.fresh
     = Ok (Response 200
             (success_body
                (JArr [JObj [(lit "name", JStr (lit "X"));
                             (lit "description", JStr (lit "Informasi description tidak tersedia"));
                             (lit "actor", JStr (lit "Informasi actor tidak tersedia"));
                             (lit "impact", JStr (lit "Informasi impact tidak tersedia"))]]))).
Proof.
  repeat split; vm_compute; reflexivity.
Qed.

(** ** The scenarios of the specification *)

(** Scenario B: the array inside a sentence is rescued. *)
Example scenario_embedded_array :
  answer (generate_misuse_cases Reference.python Samples.midnight
            (Samples.configured
               (Samples.completes_with
                  "Here is the result: [{`name`:`X`,`description`:`Y`,`actor`:`Z`,`impact`:`W`}]"))
            (Ok Samples.login_request)) Samples.fresh
  = Ok (Response 200
          (success_body
             (JArr [JObj [(lit "name", JStr (lit "X"));
                          (lit "description", JStr (lit "Y"));
                          (lit "actor", JStr (lit "Z"));
                          (lit "impact", JStr (lit "W"))]]))).
Proof. vm_compute. reflexivity. Qed.

(** Scenario C: a reply with nothing like an array in it. *)
Example scenario_prose_only :
  fst (Samples.run (Samples.completes_with "Maaf, saya tidak dapat membantu.")
         Samples.login_request)
  = Ok parse_failure_response.
Proof. vm_compute. reflexivity. Qed.

(** Scenario D: the call times out. *)
Example scenario_timeout :
  fst (Samples.run Samples.times_out Samples.login_request)
  = Ok (gateway_error_response
          (Exn (OtherException (lit "TimeoutError")) (lit "Request timed out."))).
Proof. vm_compute. reflexivity. Qed.

(** A reply that is an empty object or an empty string decodes and is
    answered as it is: the loop has nothing to visit. *)
Example reply_empty_object :
  fst (Samples.run (Samples.completes_with "{}") Samples.login_request)
  = Ok (Response 200 (success_body (JObj []))).
Proof. vm_compute. reflexivity. Qed.

(** ** What a run writes to the log *)

Lemma previews_app (a b : list event) : previews (a ++ b) = previews a ++ previews b.
Proof.
  induction a as [|[l lv m|c] a IH]; simpl; [reflexivity | | exact IH].
  destruct m; simpl; now rewrite IH.
Qed.

Lemma logs_error_app (a b : list event) : logs_error (a ++ b) = logs_error a || logs_error b.
Proof. apply existsb_app. Qed.

Lemma logs_error_response_records d status content_length error :
  logs_error (response_records d status content_length error) =
  match error with
  | Some (_ :: _) => true
  | _ => false
  end.
Proof.
  unfold response_records.
  destruct content_length as [[|n]|]; destruct error as [[|c e]|]; reflexivity.
Qed.

Lemma logs_error_request_records rt model messages temperature kwargs :
  logs_error (request_records rt model messages temperature kwargs) = false.
Proof.
  unfold request_records. rewrite !logs_error_app.
  destruct (negb (length messages =? 0) && (0 <? length messages)); simpl;
    induction kwargs as [|kv kwargs IH]; simpl; auto.
Qed.

Lemma previews_response_records d status content_length error :
  previews (response_records d status content_length error) = [].
Proof.
  unfold response_records.
  destruct content_length as [[|n]|]; destruct error as [[|c e]|]; reflexivity.
Qed.

Lemma py_get_object kvs key default :
  py_get (JObj kvs) key default =
  Ok match assoc_get key kvs with
     | Some v => v
     | None => default
     end.
Proof. unfold py_get. now destruct (assoc_get key kvs). Qed.

(** The requests the handler accepts. *)
Lemma intake_accepted rt cfg request_json c :
  intake_of rt cfg request_json = Accepted c ->
  exists kvs related,
    request_json = Ok (JObj kvs)
    /\ truthy (use_case_name_of kvs) = true
    /\ (if truthy (other_use_cases_of kvs)
        then py_join (lit ", ") (other_use_cases_of kvs)
        else Ok (lit "Tidak ada")) = Ok related
    /\ c = {| gc_model := MODEL cfg;
              gc_messages :=
                chat_messages rt (use_case_name_of kvs) (system_name_of kvs) related;
              gc_temperature := lit "0.7";
              gc_timeout := 30 |}.
Proof.
  unfold intake_of. destruct request_json as [data|e]; cbn [res_bind]; [|discriminate].
  destruct data as [| | | | | |kvs]; try discriminate.
  rewrite !py_get_object. cbn [res_bind].
  fold (use_case_name_of kvs) (system_name_of kvs) (other_use_cases_of kvs).
  destruct (truthy (use_case_name_of kvs)) eqn:Hname; cbn [negb]; [|discriminate].
  destruct (if truthy (other_use_cases_of kvs)
            then py_join (lit ", ") (other_use_cases_of kvs)
            else Ok (lit "Tidak ada")) as [related|e] eqn:Hrel;
    cbn [res_bind]; [|discriminate].
  intros H. inversion H. exists kvs, related. repeat split; assumption.
Qed.

Section HandlerTraces.

Variable rt : runtime.
Variable clock : nat -> Z.
Variable cfg : config.
Variable gw : gateway.
Hypothesis Havailable : AISUITE_AVAILABLE cfg = true.
Hypothesis Hclient : client cfg = Some gw.

Ltac step :=
  repeat progress
    (cbv beta iota delta [try_except bind lift ret raise emit logging_error Exception];
     cbn [trace reads];
     rewrite ?log_response_run, ?log_request_run, ?parse_failure_run).

Ltac settle :=
  cbn [trace reads]; eexists; eexists; split;
  [ unfold first_response_records; rewrite <- ?app_assoc; cbn [app]; reflexivity
  | split;
    [ rewrite ?calls_app, ?calls_response_records; reflexivity
    | split;
      [ rewrite ?previews_app, ?previews_response_records; reflexivity
      | rewrite ?logs_error_app, ?logs_error_response_records;
        cbn [logs_error existsb is_error_record];
        rewrite ?orb_true_r; reflexivity ] ] ].

Ltac quiet w :=
  exists [], (S (reads w)); rewrite app_nil_r; unfold first_response_records;
  split; [rewrite <- app_assoc; reflexivity|];
  repeat split; now rewrite logs_error_response_records.

(** What [call_and_respond] writes: the call, the records of the first
    [log_response], and records without a call or a preview, among
    them an ERROR record unless the response is a success. *)
Lemma call_and_respond_trace messages start_time w :
  let c := {| gc_model := MODEL cfg; gc_messages := messages;
              gc_temperature := lit "0.7"; gc_timeout := 30 |} in
  exists after n,
    call_and_respond rt clock cfg messages start_time w =
    (Ok (respond rt (gw c)),
     World (trace w ++ Call c
                       :: first_response_records (clock (reads w) - start_time) (gw c)
                       ++ after) n)
    /\ calls after = []
    /\ previews after = []
    /\ logs_error (first_response_records (clock (reads w) - start_time) (gw c) ++ after)
       = negb (is_success (respond rt (gw c))).
Proof.
  intros c. unfold call_and_respond, create. rewrite Hclient. fold c.
  unfold respond. step.
  destruct (gw c) as [result|e]; step.
  - unfold parse_and_respond. step.
    destruct (loads rt result) as [v|e1] eqn:Hloads.
    + destruct (normalise v) as [data|e2] eqn:Hnorm.
      * quiet w.
      * rewrite (normalise_TypeError _ _ Hnorm). step. settle.
    + destruct (is_JSONDecodeError e1) eqn:Hcls; step; [|settle].
      unfold on_decode_error. destruct result as [text|]; step; [|settle].
      destruct (re_search json_array_pattern text) as [group0|]; step; [|settle].
      destruct (json_loads rt group0) as [data|e3]; step; [|settle].
      quiet w.
  - exists [Log root ERROR (Line (lit "LLM API error: " ++ exn_str e));
            Log root ERROR (Traceback e)], (S (reads w)).
    unfold first_response_records. split; [now rewrite <- !app_assoc|].
    repeat split. rewrite logs_error_app. apply orb_true_r.
Qed.

(** What the handler writes for a request it accepts. *)
Lemma accepted_trace request_json w c :
  intake_of rt cfg request_json = Accepted c ->
  exists kvs after n,
    request_json = Ok (JObj kvs)
    /\ generate_misuse_cases rt clock cfg request_json w =
       (Ok (respond rt (gw c)),
        World (trace w
               ++ request_records rt (MODEL cfg) (gc_messages c) (lit "0.7")
                    [(lit "user_case", use_case_name_of kvs);
                     (lit "system_name", system_name_of kvs)]
               ++ Call c
                  :: first_response_records (clock (S (reads w)) - clock (reads w)) (gw c)
                  ++ after) n)
    /\ calls after = []
    /\ previews after = []
    /\ logs_error (first_response_records (clock (S (reads w)) - clock (reads w)) (gw c)
                   ++ after)
       = negb (is_success (respond rt (gw c))).
Proof.
  intros Hc. destruct (intake_accepted _ _ _ _ Hc) as (kvs & related & -> & Hname & Hrel & ->).
  unfold generate_misuse_cases. fold (guard_fails cfg).
  rewrite (guard_passes cfg gw Havailable Hclient).
  step. rewrite !py_get_object.
  fold (use_case_name_of kvs) (system_name_of kvs) (other_use_cases_of kvs).
  rewrite Hname. cbn [negb]. rewrite Hrel. step.
  match goal with
  | |- context [call_and_respond rt clock cfg ?ms ?st ?w1] =>
      destruct (call_and_respond_trace ms st w1) as (after & n & Hrun & Hcalls & Hprev & Herr);
      rewrite Hrun
  end.
  cbn [trace reads] in *. cbn [gc_messages].
  exists kvs, after, n. split; [reflexivity|].
  split; [now rewrite <- app_assoc|]. repeat split; assumption.
Qed.

(** What the handler writes for a request it does not accept. *)
Lemma unexpected_trace request_json w e :
  intake_of rt cfg request_json = Unexpected e ->
  generate_misuse_cases rt clock cfg request_json w =
  (Ok (unexpected_response e),
   World (trace w ++ [Log root ERROR
                        (Line (lit "Unexpected error in generate_misuse_cases: "
                                 ++ exn_str e));
                      Log root ERROR (Traceback e)]) (reads w)).
Proof.
  unfold generate_misuse_cases, intake_of. fold (guard_fails cfg).
  rewrite (guard_passes cfg gw Havailable Hclient). step.
  assert (Hdone : forall e' : exn, Unexpected e' = Unexpected e ->
            (Ok (Response 500
                   (jsonify [status_error;
                             (lit "message",
                              JStr (lit "Kesalahan tidak terduga: " ++ exn_str e'));
                             (lit "data", JArr [])])),
             World ((trace w ++ [Log root ERROR
                                  (Line (lit "Unexpected error in generate_misuse_cases: "
                                           ++ exn_str e'))])
                    ++ [Log root ERROR (Traceback e')]) (reads w))
            = (Ok (unexpected_response e),
               World (trace w ++ [Log root ERROR
                                    (Line (lit "Unexpected error in generate_misuse_cases: "
                                             ++ exn_str e));
                                  Log root ERROR (Traceback e)]) (reads w))).
  { intros e' He. inversion He; subst. now rewrite <- app_assoc. }
  destruct request_json as [data|e0]; cbn [res_bind]; [|apply Hdone].
  destruct (py_get data (lit "useCaseName") (JStr [])) as [use_case_name|e0];
    cbn [res_bind]; [|apply Hdone].
  destruct (py_get data (lit "systemName") (JStr (lit "the system"))) as [system_name|e0];
    cbn [res_bind]; [|apply Hdone].
  destruct (py_get data (lit "otherUseCases") (JArr [])) as [other_use_cases|e0];
    cbn [res_bind]; [|apply Hdone].
  destruct (truthy use_case_name); cbn [negb]; [|discriminate].
  destruct (if truthy other_use_cases
            then py_join (lit ", ") other_use_cases
            else Ok (lit "Tidak ada")) as [related|e0]; cbn [res_bind]; step;
    [discriminate | apply Hdone].
Qed.

End HandlerTraces.

(** ** Further properties of the handler *)

Lemma respond_cases rt r :
  (exists data, respond rt r = Response 200 (success_body data))
  \/ (exists e, respond rt r = gateway_error_response e)
  \/ respond rt r = parse_failure_response.
Proof.
  unfold respond. destruct r as [result|e]; [|right; left; now exists e].
  destruct (loads rt result) as [v|e].
  - destruct (normalise v) as [data|e']; [left; now exists data | right; left; now exists e'].
  - destruct (is_JSONDecodeError e); [|right; left; now exists e].
    destruct result as [text|]; [|right; left; eexists; reflexivity].
    destruct (re_search json_array_pattern text) as [m|]; [|now right; right].
    destruct (json_loads rt m) as [data|e']; [left; now exists data | now right; right].
Qed.

Lemma available_client cfg :
  available cfg -> exists gw, AISUITE_AVAILABLE cfg = true /\ client cfg = Some gw.
Proof. intros [Ha [gw Hgw]]. now exists gw. Qed.

Lemma guard_split cfg :
  guard_fails cfg = false -> exists gw, AISUITE_AVAILABLE cfg = true /\ client cfg = Some gw.
Proof.
  unfold guard_fails. intros G. apply orb_false_elim in G. destruct G as [Ha Hc].
  apply negb_false_iff in Ha. destruct (client cfg) as [gw|]; [|discriminate].
  now exists gw.
Qed.

(** No exception leaves the handler: it answers every request, with
    one of the status codes 200, 400, 500 and 503. *)
Theorem handler_always_answers rt clock cfg request_json w :
  exists resp,
    answer (generate_misuse_cases rt clock cfg request_json) w = Ok resp
    /\ In (status_code resp) [200; 400; 500; 503].
Proof.
  rewrite handler_answer. eexists. split; [reflexivity|].
  unfold response_of. destruct (guard_fails cfg); [cbn; tauto|].
  destruct (intake_of rt cfg request_json) as [e| |c]; [cbn; tauto | cbn; tauto |].
  destruct (client cfg) as [gw|]; [|cbn; tauto].
  rewrite respond_status. cbn. tauto.
Qed.

(** The handler calls the gateway at most once in a request: a call
    that raises or a reply that cannot be parsed is not tried again. *)
Theorem at_most_one_gateway_call rt clock cfg request_json w :
  length (calls (events_of (generate_misuse_cases rt clock cfg request_json) w)) <= 1.
Proof.
  rewrite handler_calls. unfold calls_of.
  destruct (guard_fails cfg); [simpl; lia|].
  destruct (intake_of rt cfg request_json); simpl; lia.
Qed.

(** With the LLM integration available, the handler answers 400
    exactly when the body is an object whose useCaseName, or the empty
    string when the key is absent, is false for Python: the empty
    string, null, false, zero, an empty array or an empty object. *)
Theorem validation_rejects_exactly_falsy_names rt clock cfg request_json w resp :
  available cfg ->
  answer (generate_misuse_cases rt clock cfg request_json) w = Ok resp ->
  (status_code resp = 400 <->
   exists kvs, request_json = Ok (JObj kvs) /\ truthy (use_case_name_of kvs) = false).
Proof.
  intros Hav. pose proof (available_guard _ Hav) as G.
  rewrite handler_answer. intros H. inversion H as [Hr]. clear H Hr.
  unfold response_of. rewrite G.
  destruct (intake_of rt cfg request_json) as [e| |c] eqn:Hi.
  - split; [discriminate|]. intros (kvs & -> & Hname).
    unfold intake_of in Hi. cbn [res_bind] in Hi. rewrite !py_get_object in Hi.
    cbn [res_bind] in Hi. fold (use_case_name_of kvs) in Hi. rewrite Hname in Hi.
    discriminate.
  - split; [intros _|reflexivity].
    unfold intake_of in Hi. destruct request_json as [data|e]; cbn [res_bind] in Hi;
      [|discriminate].
    destruct data as [| | | | | |kvs]; try discriminate.
    exists kvs. split; [reflexivity|].
    rewrite !py_get_object in Hi. cbn [res_bind] in Hi.
    fold (use_case_name_of kvs) in Hi.
    destruct (truthy (use_case_name_of kvs)); [|reflexivity].
    cbn [negb] in Hi.
    destruct (if truthy _ then _ else _); cbn [res_bind] in Hi; discriminate.
  - destruct (intake_accepted _ _ _ _ Hi) as (kvs & related & -> & Hname & _).
    destruct (client cfg) as [gw|].
    + rewrite respond_status. split; [discriminate|].
      intros (kvs' & Heq & Hname'). inversion Heq; subst. congruence.
    + split; [discriminate|].
      intros (kvs' & Heq & Hname'). inversion Heq; subst. congruence.
Qed.

Lemma validation_rejects_exactly_falsy_names_witness :
  available (Samples.configured (Samples.completes_with "[]"))
  /\ (status_code validation_response = 400 <->
      exists kvs,
        Ok (JObj [(lit "useCaseName", JInt 0)]) = Ok (JObj kvs)
        /\ truthy (use_case_name_of kvs) = false).
Proof.
  assert (Ha : available (Samples.configured (Samples.completes_with "[]"))).
  { split; [reflexivity|]. eexists. reflexivity. }
  split; [exact Ha|].
  apply (validation_rejects_exactly_falsy_names Reference.python Samples.midnight
           (Samples.configured (Samples.completes_with "[]"))
           (Ok (JObj [(lit "useCaseName", JInt 0)])) Samples.fresh validation_response Ha).
  reflexivity.
Defined.

(** With the configuration built when the module is loaded, the
    handler answers 503 exactly when the import of aisuite failed. *)
Theorem unavailable_exactly_when_import_failed rt clock aisuite request_json w resp :
  answer (generate_misuse_cases rt clock (module_init aisuite) request_json) w = Ok resp ->
  (status_code resp = 503 <-> aisuite = None).
Proof.
  rewrite handler_answer. intros H. inversion H as [Hr]. clear H Hr.
  unfold response_of. destruct aisuite as [gw|].
  - assert (G : guard_fails (module_init (Some gw)) = false) by reflexivity.
    rewrite G. split; [|discriminate].
    destruct (intake_of rt (module_init (Some gw)) request_json); try discriminate.
    change (client (module_init (Some gw))) with (Some gw). cbv beta iota.
    rewrite respond_status. discriminate.
  - assert (G : guard_fails (module_init None) = true) by reflexivity.
    rewrite G. split; reflexivity.
Qed.

Lemma unavailable_exactly_when_import_failed_witness :
  status_code unavailable_response = 503 <-> @None gateway = None.
Proof.
  apply (unavailable_exactly_when_import_failed Reference.python Samples.midnight None
           (Ok Samples.login_request) Samples.fresh unavailable_response).
  reflexivity.
Defined.

(** The shape of the responses: the status field is "success" or
    "error"; a success comes with HTTP 200, a data field and no
    message; an error comes with a message; the data field is missing
    exactly in the 400 and 503 responses. *)
Theorem response_shape rt clock cfg request_json w resp :
  answer (generate_misuse_cases rt clock cfg request_json) w = Ok resp ->
  (field "status" resp = Some (JStr (lit "success"))
   \/ field "status" resp = Some (JStr (lit "error")))
  /\ (field "status" resp = Some (JStr (lit "success")) ->
      status_code resp = 200
      /\ field "message" resp = None
      /\ exists data, field "data" resp = Some data)
  /\ (field "status" resp = Some (JStr (lit "error")) ->
      exists message, field "message" resp = Some (JStr message))
  /\ (field "data" resp = None <-> status_code resp = 400 \/ status_code resp = 503).
Proof.
  rewrite handler_answer. intros H. inversion H as [Hr]. clear H Hr.
  assert (Hfixed : forall r,
            r = unavailable_response \/ r = validation_response ->
            (field "status" r = Some (JStr (lit "success"))
             \/ field "status" r = Some (JStr (lit "error")))
            /\ (field "status" r = Some (JStr (lit "success")) ->
                status_code r = 200 /\ field "message" r = None
                /\ exists data, field "data" r = Some data)
            /\ (field "status" r = Some (JStr (lit "error")) ->
                exists message, field "message" r = Some (JStr message))
            /\ (field "data" r = None <-> status_code r = 400 \/ status_code r = 503)).
  { intros r [-> | ->].
    - split; [now right|]. split; [discriminate|]. split; [intros _; eexists; reflexivity|].
      split; [intros _; now right | reflexivity].
    - split; [now right|]. split; [discriminate|]. split; [intros _; eexists; reflexivity|].
      split; [intros _; now left | reflexivity]. }
  assert (Herr : forall code message,
            code = 200 \/ code = 500 ->
            let r := Response code (error_body message) in
            (field "status" r = Some (JStr (lit "success"))
             \/ field "status" r = Some (JStr (lit "error")))
            /\ (field "status" r = Some (JStr (lit "success")) ->
                status_code r = 200 /\ field "message" r = None
                /\ exists data, field "data" r = Some data)
            /\ (field "status" r = Some (JStr (lit "error")) ->
                exists message, field "message" r = Some (JStr message))
            /\ (field "data" r = None <-> status_code r = 400 \/ status_code r = 503)).
  { intros code message Hcode r. subst r.
    split; [now right|]. split; [discriminate|]. split; [intros _; eexists; reflexivity|].
    split; [discriminate|]. cbn [status_code]. intros [H|H]; destruct Hcode; congruence. }
  unfold response_of. destruct (guard_fails cfg); [apply Hfixed; now left|].
  destruct (intake_of rt cfg request_json) as [e| |c].
  - apply (Herr 500). now right.
  - apply Hfixed. now right.
  - destruct (client cfg) as [gw|]; [|apply Hfixed; now left].
    destruct (respond_cases rt (gw c)) as [[data ->] | [[e ->] | ->]].
    + split; [now left|]. split; [intros _; repeat split; eexists; reflexivity|].
      split; [discriminate|]. split; [discriminate|]. cbn [status_code].
      intros [H|H]; discriminate.
    + apply (Herr 200). now left.
    + apply (Herr 200). now left.
Qed.

Lemma response_shape_witness :
  field "data" validation_response = None
  <-> status_code validation_response = 400 \/ status_code validation_response = 503.
Proof.
  apply (response_shape Reference.python Samples.midnight
           (Samples.configured (Samples.completes_with "[]"))
           (Ok Samples.nameless_request) Samples.fresh validation_response).
  reflexivity.
Defined.

Lemma as_strs_fails (l : list json) (v : json) :
  In v l -> is_str v = false ->
  forall i, exists e, as_strs i l = Exc e /\ exn_cls e = TypeError.
Proof.
  induction l as [|x l IH]; intros Hin Hv i; [destruct Hin|].
  destruct Hin as [->|Hin].
  - destruct v; try discriminate; cbn [as_strs]; eexists; split; reflexivity.
  - destruct x; cbn [as_strs]; try (eexists; split; reflexivity).
    destruct (IH Hin Hv (S i)) as (e & -> & He). cbn [res_bind]. now exists e.
Qed.

(** A request object with an accepted name whose otherUseCases is an
    array with an element that is no string is not sent to the
    gateway: joining the elements raises TypeError and the handler
    answers 500, having logged the two error records and nothing of
    the request. *)
Theorem non_string_related_use_case_is_unexpected rt clock cfg kvs l v w :
  available cfg ->
  truthy (use_case_name_of kvs) = true ->
  assoc_get (lit "otherUseCases") kvs = Some (JArr l) ->
  In v l -> is_str v = false ->
  exists e,
    exn_cls e = TypeError
    /\ generate_misuse_cases rt clock cfg (Ok (JObj kvs)) w
       = (Ok (unexpected_response e),
          World (trace w ++ [Log root ERROR
                               (Line (lit "Unexpected error in generate_misuse_cases: "
                                        ++ exn_str e));
                             Log root ERROR (Traceback e)]) (reads w))
    /\ status_code (unexpected_response e) = 500.
Proof.
  intros Hav Hname Hother Hin Hv.
  destruct (available_client _ Hav) as (gw & Ha & Hgw).
  destruct (as_strs_fails l v Hin Hv 0) as (e & He & Hcls).
  exists e. split; [exact Hcls|]. split; [|reflexivity].
  apply (unexpected_trace rt clock cfg gw Ha Hgw).
  unfold intake_of. cbn [res_bind]. rewrite !py_get_object. cbn [res_bind].
  fold (use_case_name_of kvs). rewrite Hname, Hother. cbn [negb].
  destruct l as [|x l']; [destruct Hin|].
  cbn [truthy length Nat.eqb negb]. unfold py_join. cbn [py_iter].
  rewrite He. reflexivity.
Qed.

Lemma non_string_related_use_case_is_unexpected_witness :
  exists e,
    exn_cls e = TypeError
    /\ answer (generate_misuse_cases Reference.python Samples.midnight
                 (Samples.configured (Samples.completes_with "[]"))
                 (Ok (JObj [(lit "useCaseName", JStr (lit "Login"));
                            (lit "otherUseCases", JArr [JStr (lit "Logout"); JInt 3])])))
         Samples.fresh
       = Ok (unexpected_response e).
Proof.
  destruct (non_string_related_use_case_is_unexpected Reference.python Samples.midnight
              (Samples.configured (Samples.completes_with "[]"))
              [(lit "useCaseName", JStr (lit "Login"));
               (lit "otherUseCases", JArr [JStr (lit "Logout"); JInt 3])]
              [JStr (lit "Logout"); JInt 3] (JInt 3) Samples.fresh)
    as (e & Hcls & Hrun & _).
  - split; [reflexivity|]. eexists. reflexivity.
  - reflexivity.
  - reflexivity.
  - right. left. reflexivity.
  - reflexivity.
  - exists e. split; [exact Hcls|]. unfold answer. now rewrite Hrun.
Defined.

Lemma same_intake rt cfg r1 r2 :
  intake_of rt cfg r1 = intake_of rt cfg r2 ->
  response_of rt cfg r1 = response_of rt cfg r2
  /\ calls_of rt cfg r1 = calls_of rt cfg r2.
Proof.
  intros H. unfold response_of, calls_of. now rewrite H.
Qed.

Lemma intake_of_object rt cfg kvs :
  intake_of rt cfg (Ok (JObj kvs)) =
  match
    (if negb (truthy (use_case_name_of kvs)) then Ok None
     else
       res_bind (if truthy (other_use_cases_of kvs)
                 then py_join (lit ", ") (other_use_cases_of kvs)
                 else Ok (lit "Tidak ada")) (fun related =>
       Ok (Some {| gc_model := MODEL cfg;
                   gc_messages :=
                     chat_messages rt (use_case_name_of kvs) (system_name_of kvs) related;
                   gc_temperature := lit "0.7";
                   gc_timeout := 30 |})))
  with
  | Exc e => Unexpected e
  | Ok None => Rejected
  | Ok (Some c) => Accepted c
  end.
Proof.
  unfold intake_of. cbn [res_bind]. rewrite !py_get_object. reflexivity.
Qed.

(** The defaults of the optional fields: a request without systemName
    is handled as the same request with systemName "the system", and a
    request without otherUseCases as the same request with an empty
    array: the same gateway call and the same response. *)
Theorem defaults_of_optional_fields rt clock cfg kvs w :
  (assoc_get (lit "systemName") kvs = None ->
   let kvs' := kvs ++ [(lit "systemName", JStr (lit "the system"))] in
   answer (generate_misuse_cases rt clock cfg (Ok (JObj kvs'))) w
   = answer (generate_misuse_cases rt clock cfg (Ok (JObj kvs))) w
   /\ calls (events_of (generate_misuse_cases rt clock cfg (Ok (JObj kvs'))) w)
      = calls (events_of (generate_misuse_cases rt clock cfg (Ok (JObj kvs))) w))
  /\ (assoc_get (lit "otherUseCases") kvs = None ->
      let kvs' := kvs ++ [(lit "otherUseCases", JArr [])] in
      answer (generate_misuse_cases rt clock cfg (Ok (JObj kvs'))) w
      = answer (generate_misuse_cases rt clock cfg (Ok (JObj kvs))) w
      /\ calls (events_of (generate_misuse_cases rt clock cfg (Ok (JObj kvs'))) w)
         = calls (events_of (generate_misuse_cases rt clock cfg (Ok (JObj kvs))) w)).
Proof.
  split; intros Hnone kvs'; rewrite !handler_answer, !handler_calls;
    assert (Hsame : intake_of rt cfg (Ok (JObj kvs')) = intake_of rt cfg (Ok (JObj kvs))).
  - rewrite !intake_of_object.
    assert (Hu : use_case_name_of kvs' = use_case_name_of kvs).
    { unfold use_case_name_of, kvs'. rewrite assoc_get_app.
      now destruct (assoc_get (lit "useCaseName") kvs). }
    assert (Hs : system_name_of kvs' = system_name_of kvs).
    { unfold system_name_of, kvs'. now rewrite assoc_get_app, Hnone. }
    assert (Ho : other_use_cases_of kvs' = other_use_cases_of kvs).
    { unfold other_use_cases_of, kvs'. rewrite assoc_get_app.
      now destruct (assoc_get (lit "otherUseCases") kvs). }
    now rewrite Hu, Hs, Ho.
  - destruct (same_intake _ _ _ _ Hsame) as [-> ->]. now split.
  - rewrite !intake_of_object.
    assert (Hu : use_case_name_of kvs' = use_case_name_of kvs).
    { unfold use_case_name_of, kvs'. rewrite assoc_get_app.
      now destruct (assoc_get (lit "useCaseName") kvs). }
    assert (Hs : system_name_of kvs' = system_name_of kvs).
    { unfold system_name_of, kvs'. rewrite assoc_get_app.
      now destruct (assoc_get (lit "systemName") kvs). }
    assert (Ho : other_use_cases_of kvs' = other_use_cases_of kvs).
    { unfold other_use_cases_of, kvs'. now rewrite assoc_get_app, Hnone. }
    now rewrite Hu, Hs, Ho.
  - destruct (same_intake _ _ _ _ Hsame) as [-> ->]. now split.
Qed.

Lemma defaults_of_optional_fields_witness :
  assoc_get (lit "systemName") [(lit "useCaseName", JStr (lit "Login"))] = None
  /\ answer (generate_misuse_cases Reference.python Samples.midnight
               (Samples.configured (Samples.completes_with "[]"))
               (Ok (JObj ([(lit "useCaseName", JStr (lit "Login"))]
                            ++ [(lit "systemName", JStr (lit "the system"))]))))
       Samples.fresh
     = answer (generate_misuse_cases Reference.python Samples.midnight
                 (Samples.configured (Samples.completes_with "[]"))
                 (Ok (JObj [(lit "useCaseName", JStr (lit "Login"))]))) Samples.fresh.
Proof.
  split; [reflexivity|].
  apply (proj1 (defaults_of_optional_fields Reference.python Samples.midnight
                  (Samples.configured (Samples.completes_with "[]"))
                  [(lit "useCaseName", JStr (lit "Login"))] Samples.fresh)).
  reflexivity.
Defined.

(** The events of a run that called the gateway. *)
Lemma accepted_events rt clock cfg request_json w c :
  In c (calls (events_of (generate_misuse_cases rt clock cfg request_json) w)) ->
  exists gw kvs after,
    client cfg = Some gw
    /\ request_json = Ok (JObj kvs)
    /\ intake_of rt cfg request_json = Accepted c
    /\ answer (generate_misuse_cases rt clock cfg request_json) w = Ok (respond rt (gw c))
    /\ events_of (generate_misuse_cases rt clock cfg request_json) w
       = request_records rt (MODEL cfg) (gc_messages c) (lit "0.7")
           [(lit "user_case", use_case_name_of kvs);
            (lit "system_name", system_name_of kvs)]
         ++ Call c
            :: first_response_records (clock (S (reads w)) - clock (reads w)) (gw c)
            ++ after
    /\ calls after = []
    /\ previews after = []
    /\ logs_error (first_response_records (clock (S (reads w)) - clock (reads w)) (gw c)
                   ++ after)
       = negb (is_success (respond rt (gw c))).
Proof.
  rewrite handler_calls. intros Hin.
  destruct (calls_of_accepted _ _ _ _ Hin) as [G Hi].
  destruct (guard_split _ G) as (gw & Ha & Hgw).
  destruct (accepted_trace rt clock cfg gw Ha Hgw request_json w c Hi)
    as (kvs & after & n & Hreq & Hrun & Hcalls & Hprev & Herr).
  exists gw, kvs, after. repeat split; try assumption.
  - unfold answer. now rewrite Hrun.
  - exact (events_of_run _ _ _ _ _ Hrun).
Qed.

Lemma is_substring_inside (a f b : str) : is_substring f (a ++ f ++ b) = true.
Proof. apply is_substring_app. Qed.

(** The gateway call of a request: the model of the configuration,
    temperature 0.7, a timeout of 30 seconds, and two messages, the
    fixed system prompt and a user prompt that holds the use case name
    and the system name of the request as they are formatted. *)
Theorem gateway_call_shape rt clock cfg request_json w c :
  In c (calls (events_of (generate_misuse_cases rt clock cfg request_json) w)) ->
  gc_model c = MODEL cfg
  /\ gc_temperature c = lit "0.7"
  /\ gc_timeout c = 30
  /\ exists kvs user_content,
       request_json = Ok (JObj kvs)
       /\ gc_messages c
          = [[(lit "role", lit "system"); (lit "content", system_prompt)];
             [(lit "role", lit "user"); (lit "content", user_content)]]
       /\ is_substring (py_format rt (use_case_name_of kvs)) user_content = true
       /\ is_substring (py_format rt (system_name_of kvs)) user_content = true.
Proof.
  rewrite handler_calls. intros Hin.
  destruct (calls_of_accepted _ _ _ _ Hin) as [_ Hi].
  destruct (intake_accepted _ _ _ _ Hi) as (kvs & related & -> & _ & _ & ->).
  cbn [gc_model gc_temperature gc_timeout gc_messages]. repeat split.
  exists kvs, (user_prompt rt (use_case_name_of kvs) (system_name_of kvs) related).
  split; [reflexivity|]. split; [reflexivity|]. unfold user_prompt. split.
  - apply is_substring_inside.
  - rewrite (app_assoc _ (py_format rt (use_case_name_of kvs))).
    rewrite (app_assoc _ (lit "
        Sistem: ")).
    apply is_substring_inside.
Qed.

Lemma gateway_call_shape_witness :
  In Samples.login_call
     (calls (events_of (generate_misuse_cases Reference.python Samples.midnight
                          (Samples.configured (Samples.completes_with "[]"))
                          (Ok Samples.login_request)) Samples.fresh))
  /\ gc_timeout Samples.login_call = 30.
Proof.
  assert (Hin : In Samples.login_call
     (calls (events_of (generate_misuse_cases Reference.python Samples.midnight
                          (Samples.configured (Samples.completes_with "[]"))
                          (Ok Samples.login_request)) Samples.fresh)))
    by (vm_compute; left; reflexivity).
  split; [exact Hin|].
  exact (proj1 (proj2 (proj2 (gateway_call_shape _ _ _ _ _ _ Hin)))).
Defined.

Lemma previews_params rt (kwargs : list (str * json)) :
  previews (List.map (fun kv => Log api_llm INFO (Param (fst kv) (py_format rt (snd kv))))
              kwargs) = [].
Proof. induction kwargs as [|kv kwargs IH]; simpl; auto. Qed.

Lemma previews_request_records rt model messages temperature kwargs :
  previews (request_records rt model messages temperature kwargs) =
  if negb (length messages =? 0) && (0 <? length messages)
  then [preview_of (message_get (lit "content") [] (last messages []))]
  else [].
Proof.
  unfold request_records. rewrite !previews_app, previews_params, app_nil_r.
  now destruct (negb (length messages =? 0) && (0 <? length messages)).
Qed.

Ltac literal_lengths :=
  repeat match goal with
         | |- context [length (lit ?s)] =>
             let n := eval vm_compute in (length (lit s)) in
             change (length (lit s)) with n
         end.

Lemma user_prompt_long rt use_case_name system_name related :
  100 < length (user_prompt rt use_case_name system_name related).
Proof.
  unfold user_prompt. rewrite !length_app. literal_lengths. lia.
Qed.

(** Every request that reaches the gateway logs exactly one preview:
    the first 100 characters of the user prompt followed by "...",
    103 characters in all, since the user prompt is always longer than
    100 characters. *)
Theorem handler_logs_truncated_prompt rt clock cfg request_json w c :
  In c (calls (events_of (generate_misuse_cases rt clock cfg request_json) w)) ->
  exists p,
    previews (events_of (generate_misuse_cases rt clock cfg request_json) w) = [p]
    /\ p = firstn 100 (message_get (lit "content") [] (last (gc_messages c) [])) ++ lit "..."
    /\ length p = 103.
Proof.
  intros Hin.
  destruct (accepted_events _ _ _ _ _ _ Hin)
    as (gw & kvs & after & _ & _ & Hi & _ & Hev & _ & Hprev & _).
  destruct (intake_accepted _ _ _ _ Hi) as (kvs' & related & _ & _ & _ & Hc).
  rewrite Hev, previews_app. cbn [previews]. rewrite previews_app, Hprev, app_nil_r.
  assert (Hfirst : previews (first_response_records
                               (clock (S (reads w)) - clock (reads w)) (gw c)) = []).
  { unfold first_response_records. destruct (gw c); apply previews_response_records. }
  rewrite Hfirst, app_nil_r, previews_request_records.
  subst c. cbn [gc_messages]. unfold chat_messages.
  cbn [length Nat.eqb Nat.ltb Nat.leb negb andb last message_get].
  change (str_eqb (lit "content") (lit "role")) with false.
  change (str_eqb (lit "content") (lit "content")) with true.
  cbv iota.
  pose proof (user_prompt_long rt (use_case_name_of kvs') (system_name_of kvs') related) as Hlong.
  eexists. split; [reflexivity|]. unfold preview_of.
  apply Nat.ltb_lt in Hlong. rewrite Hlong. split; [reflexivity|].
  apply Nat.ltb_lt in Hlong.
  rewrite length_app, length_firstn. literal_lengths. lia.
Qed.

Lemma handler_logs_truncated_prompt_witness :
  exists p,
    previews (events_of (generate_misuse_cases Reference.python Samples.midnight
                           (Samples.configured (Samples.completes_with "[]"))
                           (Ok Samples.login_request)) Samples.fresh) = [p]
    /\ p = firstn 100 (message_get (lit "content") []
                         (last (gc_messages Samples.login_call) [])) ++ lit "..."
    /\ length p = 103.
Proof.
  apply handler_logs_truncated_prompt. vm_compute. left. reflexivity.
Defined.

(** The use case name and the system name of every request that
    reaches the gateway are written to the log in full, as parameters
    of the request, before the call is made. *)
Theorem handler_logs_names_in_full rt clock cfg request_json w c :
  In c (calls (events_of (generate_misuse_cases rt clock cfg request_json) w)) ->
  exists kvs before after,
    request_json = Ok (JObj kvs)
    /\ events_of (generate_misuse_cases rt clock cfg request_json) w
       = before ++ Call c :: after
    /\ In (Log api_llm INFO (Param (lit "user_case") (py_format rt (use_case_name_of kvs))))
          before
    /\ In (Log api_llm INFO (Param (lit "system_name") (py_format rt (system_name_of kvs))))
          before.
Proof.
  intros Hin.
  destruct (accepted_events _ _ _ _ _ _ Hin)
    as (gw & kvs & after & _ & Hreq & _ & _ & Hev & _).
  exists kvs. eexists. eexists. split; [exact Hreq|]. split; [exact Hev|].
  unfold request_records. split; apply in_or_app; right; apply in_or_app; right.
  - left. reflexivity.
  - right. left. reflexivity.
Qed.

Lemma handler_logs_names_in_full_witness :
  exists kvs before after,
    Ok Samples.login_request = Ok (JObj kvs)
    /\ events_of (generate_misuse_cases Reference.python Samples.midnight
                    (Samples.configured (Samples.completes_with "[]"))
                    (Ok Samples.login_request)) Samples.fresh
       = before ++ Call Samples.login_call :: after
    /\ In (Log api_llm INFO
             (Param (lit "user_case") (py_format Reference.python (use_case_name_of kvs))))
          before
    /\ In (Log api_llm INFO
             (Param (lit "system_name") (py_format Reference.python (system_name_of kvs))))
          before.
Proof.
  apply handler_logs_names_in_full. vm_compute. left. reflexivity.
Defined.

(** The records around the gateway call: the records of the request
    come first, then the call, then the records of a response whose
    status tells how the call ended, "success" when it returned (also
    when the reply is not parsed afterwards) and "error" when it
    raised, with the time between the two clock readings; no other
    call follows. *)
Theorem call_is_bracketed_by_log_records rt clock cfg request_json w c :
  In c (calls (events_of (generate_misuse_cases rt clock cfg request_json) w)) ->
  exists kvs r after,
    request_json = Ok (JObj kvs)
    /\ answers cfg c r
    /\ events_of (generate_misuse_cases rt clock cfg request_json) w
       = request_records rt (MODEL cfg) (gc_messages c) (lit "0.7")
           [(lit "user_case", use_case_name_of kvs);
            (lit "system_name", system_name_of kvs)]
         ++ Call c
            :: [Log api_llm INFO
                  (ApiResponse (match r with
                                | Completed _ => lit "success"
                                | Failed _ => lit "error"
                                end));
                Log api_llm INFO (Duration (clock (S (reads w)) - clock (reads w)))]
            ++ after
    /\ calls after = [].
Proof.
  intros Hin.
  destruct (accepted_events _ _ _ _ _ _ Hin)
    as (gw & kvs & after & Hgw & Hreq & _ & _ & Hev & Hcalls & _).
  exists kvs, (gw c).
  unfold first_response_records, response_records in Hev.
  destruct (gw c) as [result|e] eqn:Hr.
  - eexists. split; [exact Hreq|]. split; [now exists gw|].
    split; [rewrite Hev; rewrite <- !app_assoc; reflexivity|].
    rewrite !calls_app, Hcalls.
    now destruct result as [[|x r]|].
  - eexists. split; [exact Hreq|]. split; [now exists gw|].
    split; [rewrite Hev; rewrite <- !app_assoc; reflexivity|].
    rewrite !calls_app, Hcalls.
    now destruct (exn_str e).
Qed.

Lemma call_is_bracketed_by_log_records_witness :
  exists kvs r after,
    Ok Samples.login_request = Ok (JObj kvs)
    /\ answers (Samples.configured Samples.times_out) Samples.login_call r
    /\ events_of (generate_misuse_cases Reference.python Samples.midnight
                    (Samples.configured Samples.times_out)
                    (Ok Samples.login_request)) Samples.fresh
       = request_records Reference.python (MODEL (Samples.configured Samples.times_out))
           (gc_messages Samples.login_call) (lit "0.7")
           [(lit "user_case", use_case_name_of kvs);
            (lit "system_name", system_name_of kvs)]
         ++ Call Samples.login_call
            :: [Log api_llm INFO
                  (ApiResponse (match r with
                                | Completed _ => lit "success"
                                | Failed _ => lit "error"
                                end));
                Log api_llm INFO
                  (Duration (Samples.midnight (S (reads Samples.fresh))
                             - Samples.midnight (reads Samples.fresh)))]
            ++ after
    /\ calls after = [].
Proof.
  apply call_is_bracketed_by_log_records. vm_compute. left. reflexivity.
Defined.

Lemma respond_success_or_soft rt r :
  (is_success (respond rt r) = true /\ ~ soft_error (respond rt r))
  \/ (is_success (respond rt r) = false /\ soft_error (respond rt r)).
Proof.
  destruct (respond_cases rt r) as [[data ->] | [[e ->] | ->]].
  - left. split; [reflexivity|]. intros (_ & H & _). discriminate.
  - right. split; [reflexivity | apply soft_error_gateway].
  - right. split; [reflexivity | apply soft_error_parse_failure].
Qed.

(** A record of level ERROR is written exactly for the responses that
    report a failure of the service: the 500 of the unexpected error
    and the 200 soft errors.  A success, the 400 of the validation and
    the 503 of the missing integration write none. *)
Theorem error_records_match_failures rt clock cfg request_json w resp :
  answer (generate_misuse_cases rt clock cfg request_json) w = Ok resp ->
  (logs_error (events_of (generate_misuse_cases rt clock cfg request_json) w) = true
   <-> status_code resp = 500 \/ soft_error resp).
Proof.
  intros Hanswer.
  destruct (guard_fails cfg) eqn:G.
  - pose proof (unavailable_run rt clock cfg request_json w G) as Hrun.
    unfold answer in Hanswer. rewrite Hrun in Hanswer. inversion Hanswer; subst resp.
    unfold events_of. rewrite Hrun. cbn [snd]. rewrite skipn_all.
    split; [discriminate|]. intros [H | (H & _)]; discriminate.
  - destruct (guard_split _ G) as (gw & Ha & Hgw).
    destruct (intake_of rt cfg request_json) as [e| |c] eqn:Hi.
    + pose proof (unexpected_trace rt clock cfg gw Ha Hgw request_json w e Hi) as Hrun.
      unfold answer in Hanswer. rewrite Hrun in Hanswer. inversion Hanswer; subst resp.
      rewrite (events_of_run _ _ _ _ _ Hrun). split; [now left | reflexivity].
    + pose proof (rejected_run rt clock cfg gw Ha Hgw request_json w Hi) as Hrun.
      unfold answer in Hanswer. rewrite Hrun in Hanswer. inversion Hanswer; subst resp.
      unfold events_of. rewrite Hrun. cbn [snd]. rewrite skipn_all.
      split; [discriminate|]. intros [H | (H & _)]; discriminate.
    + destruct (accepted_trace rt clock cfg gw Ha Hgw request_json w c Hi)
        as (kvs & after & n & _ & Hrun & _ & _ & Herr).
      unfold answer in Hanswer. rewrite Hrun in Hanswer. inversion Hanswer; subst resp.
      rewrite (events_of_run _ _ _ _ _ Hrun).
      rewrite logs_error_app, logs_error_request_records. cbn [orb].
      change (logs_error (Call c :: ?l)) with (logs_error l).
      rewrite Herr, respond_status.
      destruct (respond_success_or_soft rt (gw c)) as [[-> Hno] | [-> Hsoft]]; cbn [negb].
      * split; [discriminate|]. intros [H | H]; [discriminate | contradiction].
      * split; [now right | reflexivity].
Qed.

Lemma error_records_match_failures_witness :
  logs_error (events_of (generate_misuse_cases Reference.python Samples.midnight
                           (Samples.configured Samples.times_out)
                           (Ok Samples.login_request)) Samples.fresh) = true
  <-> status_code (gateway_error_response
                     (Exn (OtherException (lit "TimeoutError")) (lit "Request timed out.")))
      = 500
      \/ soft_error (gateway_error_response
                       (Exn (OtherException (lit "TimeoutError"))
                          (lit "Request timed out."))).
Proof.
  apply error_records_match_failures. vm_compute. reflexivity.
Defined.

(** The text of an exception goes to the client: the message of the
    500 response ends with the text of the exception raised while the
    request was read, and the message of the soft error with the text
    of the exception the gateway call raised. *)
Theorem exception_text_is_relayed rt clock cfg request_json w :
  available cfg ->
  (forall e, request_json = Exc e ->
     exists resp,
       answer (generate_misuse_cases rt clock cfg request_json) w = Ok resp
       /\ status_code resp = 500
       /\ field "message" resp
          = Some (JStr (lit "Kesalahan tidak terduga: " ++ exn_str e)))
  /\ (forall c e,
        In c (calls (events_of (generate_misuse_cases rt clock cfg request_json) w)) ->
        answers cfg c (Failed e) ->
        exists resp,
          answer (generate_misuse_cases rt clock cfg request_json) w = Ok resp
          /\ status_code resp = 200
          /\ field "message" resp
             = Some (JStr (lit "Error saat generate kasus penyalahgunaan: " ++ exn_str e))).
Proof.
  intros Hav. pose proof (available_guard _ Hav) as G. split.
  - intros e ->. rewrite handler_answer. unfold response_of, intake_of.
    rewrite G. cbn [res_bind]. eexists. repeat split.
  - intros c e Hin Hans. rewrite handler_calls in Hin. rewrite handler_answer.
    rewrite (response_of_accepted _ _ _ _ _ Hin Hans).
    eexists. repeat split.
Qed.

Lemma exception_text_is_relayed_witness :
  exists resp,
    answer (generate_misuse_cases Reference.python Samples.midnight
              (Samples.configured Samples.times_out)
              (Ok Samples.login_request)) Samples.fresh = Ok resp
    /\ status_code resp = 200
    /\ field "message" resp
       = Some (JStr (lit "Error saat generate kasus penyalahgunaan: "
                       ++ lit "Request timed out.")).
Proof.
  assert (Ha : available (Samples.configured Samples.times_out)).
  { split; [reflexivity|]. eexists. reflexivity. }
  apply (proj2 (exception_text_is_relayed Reference.python Samples.midnight
                  (Samples.configured Samples.times_out)
                  (Ok Samples.login_request) Samples.fresh Ha)
           Samples.login_call
           (Exn (OtherException (lit "TimeoutError")) (lit "Request timed out."))).
  - vm_compute. left. reflexivity.
  - eexists. split; reflexivity.
Defined.

Lemma res_map_fails {A B} (f : A -> res B) (l : list A) (x : A) (e : exn) :
  In x l -> f x = Exc e -> exists e', res_map f l = Exc e'.
Proof.
  induction l as [|y l IH]; intros Hin Hx; [destruct Hin|].
  cbn [res_map]. destruct Hin as [->|Hin].
  - rewrite Hx. now exists e.
  - destruct (f y) as [z|e']; cbn [res_bind]; [|now exists e'].
    destruct (IH Hin Hx) as [e' ->]. now exists e'.
Qed.

Lemma normalise_scalar_raises v :
  is_scalar v = true \/ (exists l x, v = JArr l /\ In x l /\ is_scalar x = true) ->
  exists e, normalise v = Exc e.
Proof.
  intros [Hv | (l & x & -> & Hin & Hx)].
  - destruct v; try discriminate; eexists; reflexivity.
  - unfold normalise. cbn [py_iter res_bind].
    assert (Hfill : exists e, fill_fields required_fields x = Exc e)
      by (destruct x; try discriminate; eexists; reflexivity).
    destruct Hfill as [e He].
    destruct (res_map_fails _ l x e Hin He) as [e' ->]. now exists e'.
Qed.

(** A reply without content, a reply that decodes to null, a boolean
    or a number, and a reply that decodes to an array with such an
    element are all answered with the soft error: HTTP 200, status
    "error", an empty data array. *)
Theorem reply_without_objects_is_soft_error rt clock cfg request_json w c :
  In c (calls (events_of (generate_misuse_cases rt clock cfg request_json) w)) ->
  answers cfg c (Completed None)
  \/ (exists text v,
        answers cfg c (Completed (Some text))
        /\ json_loads rt text = Ok v
        /\ (is_scalar v = true
            \/ exists l x, v = JArr l /\ In x l /\ is_scalar x = true)) ->
  exists resp,
    answer (generate_misuse_cases rt clock cfg request_json) w = Ok resp
    /\ soft_error resp.
Proof.
  rewrite handler_calls, handler_answer. intros Hin H.
  eexists. split; [reflexivity|].
  destruct H as [Hans | (text & v & Hans & Hloads & Hv)];
    rewrite (response_of_accepted _ _ _ _ _ Hin Hans); unfold respond; cbn [loads].
  - apply soft_error_gateway.
  - rewrite Hloads. destruct (normalise_scalar_raises v Hv) as [e ->].
    apply soft_error_gateway.
Qed.

Lemma reply_without_objects_is_soft_error_witness :
  exists resp,
    answer (generate_misuse_cases Reference.python Samples.midnight
              (Samples.configured (Samples.completes_with "[{`name`:`X`}, null]"))
              (Ok Samples.login_request)) Samples.fresh = Ok resp
    /\ soft_error resp.
Proof.
  apply (reply_without_objects_is_soft_error Reference.python Samples.midnight
           (Samples.configured (Samples.completes_with "[{`name`:`X`}, null]"))
           (Ok Samples.login_request) Samples.fresh Samples.login_call).
  - vm_compute. left. reflexivity.
  - right. exists (lit "[{`name`:`X`}, null]"), (JArr [JObj [(lit "name", JStr (lit "X"))]; JNull]).
    split; [eexists; split; reflexivity|]. split; [reflexivity|].
    right. exists [JObj [(lit "name", JStr (lit "X"))]; JNull], JNull.
    split; [reflexivity|]. split; [right; left; reflexivity | reflexivity].
Defined.

Lemma array_shape_chars m :
  array_shape m -> In 91%N m /\ In 123%N m /\ In 125%N m /\ In 93%N m.
Proof.
  intros (ws1 & span & ws2 & -> & _ & _).
  repeat split; repeat (apply in_or_app; (now left; left) || right);
    try (now left).
Qed.

(** A reply that does not decode and lacks one of the four characters
    of the pattern, an opening or closing bracket or brace, is not
    rescued: the answer is the parse-failure response. *)
Theorem reply_without_brackets_is_parse_failure rt clock cfg request_json w c text e :
  In c (calls (events_of (generate_misuse_cases rt clock cfg request_json) w)) ->
  answers cfg c (Completed (Some text)) ->
  json_loads rt text = Exc e ->
  is_JSONDecodeError e = true ->
  ~ In 91%N text \/ ~ In 123%N text \/ ~ In 125%N text \/ ~ In 93%N text ->
  answer (generate_misuse_cases rt clock cfg request_json) w = Ok parse_failure_response.
Proof.
  rewrite handler_calls, handler_answer. intros Hin Hans Hloads Hcls Hlack.
  rewrite (response_of_accepted _ _ _ _ _ Hin Hans). unfold respond. cbn [loads].
  rewrite Hloads, Hcls.
  destruct (re_search json_array_pattern text) as [m|] eqn:Hsearch; [|reflexivity].
  exfalso. destruct (re_search_first_greedy _ _ Hsearch) as (pre & post & -> & Hshape & _).
  destruct (array_shape_chars m Hshape) as (H1 & H2 & H3 & H4).
  assert (Hsub : forall x, In x m -> In x (pre ++ m ++ post)).
  { intros x Hx. apply in_or_app. right. apply in_or_app. now left. }
  destruct Hlack as [H | [H | [H | H]]]; apply H; now apply Hsub.
Qed.

Lemma reply_without_brackets_is_parse_failure_witness :
  answer (generate_misuse_cases Reference.python Samples.midnight
            (Samples.configured (Samples.completes_with "Maaf, saya tidak dapat membantu."))
            (Ok Samples.login_request)) Samples.fresh
  = Ok parse_failure_response.
Proof.
  apply (reply_without_brackets_is_parse_failure Reference.python Samples.midnight
           (Samples.configured (Samples.completes_with "Maaf, saya tidak dapat membantu."))
           (Ok Samples.login_request) Samples.fresh Samples.login_call
           (lit "Maaf, saya tidak dapat membantu.")
           (Exn JSONDecodeError (lit "Expecting value"))).
  - vm_compute. left. reflexivity.
  - eexists. split; reflexivity.
  - reflexivity.
  - reflexivity.
  - left. vm_compute. intuition discriminate.
Defined.

(** ** Further properties of the normalisation and of the search *)

Lemma filter_nil_iff {A} (p : A -> bool) (l : list A) :
  filter p l = [] <-> forallb (fun x => negb (p x)) l = true.
Proof.
  induction l as [|x l IH]; simpl; [tauto|].
  destruct (p x); simpl; [split; discriminate | exact IH].
Qed.

Lemma fill_missing_fixed kvs :
  fill_missing kvs = kvs <-> has_required_fields kvs = true.
Proof.
  unfold fill_missing, has_required_fields. split.
  - intros H.
    assert (H' : kvs ++ List.map placeholder_entry (filter (missing_in kvs) required_fields)
                 = kvs ++ []) by (now rewrite app_nil_r).
    apply app_inv_head in H'. clear H. rename H' into H.
    apply map_eq_nil in H. apply filter_nil_iff in H.
    apply forallb_forall. intros f Hf.
    rewrite forallb_forall in H. specialize (H f Hf).
    unfold missing_in in H. now rewrite negb_involutive in H.
  - intros H.
    assert (Hf : filter (missing_in kvs) required_fields = []).
    { apply filter_nil_iff. apply forallb_forall. intros f Hf.
      rewrite forallb_forall in H. specialize (H f Hf).
      unfold missing_in. now rewrite negb_involutive. }
    rewrite Hf. apply app_nil_r.
Qed.

Lemma fill_missing_has_required kvs : has_required_fields (fill_missing kvs) = true.
Proof.
  unfold has_required_fields. apply forallb_forall. intros f Hf. unfold has_key.
  destruct (assoc_get f kvs) as [v|] eqn:Hget.
  - now rewrite (fill_missing_keeps _ _ _ Hget).
  - now rewrite (fill_missing_adds _ _ Hf Hget).
Qed.

Lemma fill_fields_stable x y :
  fill_fields required_fields x = Ok y -> fill_fields required_fields y = Ok y.
Proof.
  intros H. destruct x as [| | | | | |kvs];
    try (assert (Hy := H); apply fill_fields_non_object in Hy;
         [subst y; exact H | reflexivity]).
  rewrite (fill_fields_object _ required_fields_NoDup) in H.
  fold (fill_missing kvs) in H. inversion H; subst y.
  rewrite (fill_fields_object _ required_fields_NoDup).
  fold (fill_missing (fill_missing kvs)).
  now rewrite (proj2 (fill_missing_fixed _) (fill_missing_has_required kvs)).
Qed.

Lemma res_map_stable {A} (f : A -> res A) (l l' : list A) :
  (forall x y, f x = Ok y -> f y = Ok y) ->
  res_map f l = Ok l' -> res_map f l' = Ok l'.
Proof.
  intros Hf H. apply res_map_Ok in H.
  induction H as [|x y l l' Hxy _ IH]; [reflexivity|].
  cbn [res_map]. rewrite (Hf _ _ Hxy). cbn [res_bind]. now rewrite IH.
Qed.

(** The normalisation is idempotent: a value it returns is returned
    unchanged when it is normalised again. *)
Theorem normalise_idempotent v v' :
  normalise v = Ok v' -> normalise v' = Ok v'.
Proof.
  unfold normalise. intros H.
  destruct (py_iter v) as [items|e] eqn:Hiter; cbn [res_bind] in H; [|discriminate].
  destruct (res_map (fill_fields required_fields) items) as [items'|e] eqn:Hmap;
    cbn [res_bind] in H; [|discriminate].
  destruct v as [| | | | s |l|kvs]; try discriminate; inversion H; subst v'.
  - rewrite Hiter. cbn [res_bind]. now rewrite Hmap.
  - cbn [py_iter] in Hiter. inversion Hiter; subst items. cbn [py_iter res_bind].
    now rewrite (res_map_stable _ _ _ fill_fields_stable Hmap).
  - rewrite Hiter. cbn [res_bind]. now rewrite Hmap.
Qed.

Lemma normalise_idempotent_witness :
  normalise (JArr [JObj (fill_missing [(lit "name", JStr (lit "X"))])])
  = Ok (JArr [JObj (fill_missing [(lit "name", JStr (lit "X"))])]).
Proof.
  apply (normalise_idempotent (JArr [JObj [(lit "name", JStr (lit "X"))]])).
  reflexivity.
Defined.

(** A decoded array of objects is returned as it is exactly when every
    object has the four required keys, whatever their values: a field
    that is present with null or an empty string gets no placeholder. *)
Theorem normalise_keeps_complete_objects (objs : list (list (str * json))) :
  normalise (JArr (List.map JObj objs)) = Ok (JArr (List.map JObj objs))
  <-> forallb has_required_fields objs = true.
Proof.
  rewrite normalise_objects. split.
  - intros H. inversion H as [Hmap]. clear H.
    induction objs as [|kvs objs IH]; [reflexivity|].
    cbn [List.map] in Hmap. injection Hmap as Hk Hrest.
    cbn [forallb]. rewrite (proj1 (fill_missing_fixed kvs) Hk). now apply IH.
  - intros H. do 2 f_equal.
    induction objs as [|kvs objs IH]; [reflexivity|].
    cbn [forallb] in H. apply andb_true_iff in H. destruct H as [Hk Hrest].
    cbn [List.map]. rewrite (proj2 (fill_missing_fixed kvs) Hk). now rewrite IH.
Qed.

Lemma normalise_keeps_complete_objects_witness :
  normalise (JArr (List.map JObj [[(lit "name", JNull); (lit "description", JStr []);
                                   (lit "actor", JNull); (lit "impact", JInt 0)]]))
  = Ok (JArr (List.map JObj [[(lit "name", JNull); (lit "description", JStr []);
                              (lit "actor", JNull); (lit "impact", JInt 0)]])).
Proof.
  apply (proj2 (normalise_keeps_complete_objects
                  [[(lit "name", JNull); (lit "description", JStr []);
                    (lit "actor", JNull); (lit "impact", JInt 0)]])).
  reflexivity.
Defined.

Lemma array_shape_span (a mid b : str) :
  array_shape a -> array_shape b -> array_shape (a ++ mid ++ b).
Proof.
  intros (ws1 & s1 & ws2 & -> & H1 & _) (ws1' & s2 & ws2' & -> & _ & H2').
  exists ws1, (s1 ++ [125%N] ++ ws2 ++ [93%N] ++ mid ++ [91%N] ++ ws1' ++ [123%N] ++ s2), ws2'.
  split; [|now split].
  repeat (rewrite <- ?app_assoc; cbn [app]). reflexivity.
Qed.

(** The search does not stop at the first array: in a text that begins
    with a substring of the array shape and ends with another one, the
    match is the whole text, both arrays and what lies between them. *)
Theorem search_spans_to_last_array (a mid b : str) :
  array_shape a -> array_shape b ->
  re_search json_array_pattern (a ++ mid ++ b) = Some (a ++ mid ++ b).
Proof.
  intros Ha Hb. pose proof (array_shape_span a mid b Ha Hb) as Hshape.
  assert (Hwhole : first_greedy_match (a ++ mid ++ b) (a ++ mid ++ b)).
  { exists [], []. split; [now rewrite app_nil_r|]. split; [exact Hshape|]. split.
    - intros pre' m' post' _ _. simpl. lia.
    - intros x y z Hnil (ws & -> & _).
      symmetry in Hnil. apply app_eq_nil in Hnil. destruct Hnil as [_ Hnil].
      discriminate. }
  destruct (re_search json_array_pattern (a ++ mid ++ b)) as [m|] eqn:Hsearch.
  - f_equal. apply (first_greedy_match_unique (a ++ mid ++ b));
      [now apply re_search_first_greedy | exact Hwhole].
  - exfalso. apply (re_search_no_match _ Hsearch [] (a ++ mid ++ b) []);
      [now rewrite app_nil_r | exact Hshape].
Qed.

Lemma search_spans_to_last_array_witness :
  re_search json_array_pattern (lit "[{`a`:1}]" ++ lit " dan " ++ lit "[{`b`:2}]")
  = Some (lit "[{`a`:1}]" ++ lit " dan " ++ lit "[{`b`:2}]").
Proof.
  apply search_spans_to_last_array.
  - exists [], (lit "`a`:1"), []. repeat split; constructor.
  - exists [], (lit "`b`:2"), []. repeat split; constructor.
Defined.

(** ** Further properties of the logger and of the save handler *)

Lemma message_get_absent (key default : str) (m : message) :
  (forall v, ~ In (key, v) m) -> message_get key default m = default.
Proof.
  induction m as [|[k v] m IH]; intros H; [reflexivity|].
  cbn [message_get]. destruct (str_eqb key k) eqn:E.
  - apply str_eqb_eq in E. subst k. exfalso. apply (H v). now left.
  - apply IH. intros v' Hin. apply (H v'). now right.
Qed.

(** The preview [log_request] writes comes from the last message
    alone: an empty message list gives no preview, and a list gives
    the one preview of the content of its last message, which is the
    empty string when that message has no content. *)
Theorem log_request_previews_last_message rt clock model temperature kwargs w :
  previews (events_of (log_request rt clock model [] temperature kwargs) w) = []
  /\ (forall earlier m,
        previews (events_of (log_request rt clock model (earlier ++ [m]) temperature kwargs) w)
        = [preview_of (message_get (lit "content") [] m)])
  /\ (forall earlier m,
        (forall v, ~ In (lit "content", v) m) ->
        previews (events_of (log_request rt clock model (earlier ++ [m]) temperature kwargs) w)
        = [[]]).
Proof.
  assert (Hlast : forall earlier m,
            previews (events_of (log_request rt clock model (earlier ++ [m])
                                   temperature kwargs) w)
            = [preview_of (message_get (lit "content") [] m)]).
  { intros earlier m.
    rewrite (events_of_run _ _ _ _ _ (log_request_run rt clock model _ temperature kwargs w)).
    rewrite previews_request_records, last_last, length_app. cbn [length].
    replace (length earlier + 1) with (S (length earlier)) by lia. reflexivity. }
  split; [|split].
  - rewrite (events_of_run _ _ _ _ _ (log_request_run rt clock model [] temperature kwargs w)).
    now rewrite previews_request_records.
  - exact Hlast.
  - intros earlier m Hno. rewrite Hlast, (message_get_absent _ _ _ Hno). reflexivity.
Qed.

Lemma log_request_previews_last_message_witness :
  previews (events_of (log_request Reference.python Samples.midnight None
                         ([Samples.long_message] ++ [[(lit "role", lit "user")]])
                         (lit "0.7") []) Samples.fresh)
  = [[]].
Proof.
  apply (proj2 (proj2 (log_request_previews_last_message Reference.python Samples.midnight
                         None (lit "0.7") [] Samples.fresh))).
  intros v [H|[]]. discriminate.
Defined.

(** What [log_response] leaves out: a content length of zero and an
    empty error text are not logged, as if they had not been given.  It
    writes the status and the duration, then the content length and the
    error when they are given, two to four records, and the only record
    of level ERROR is the one of a non-empty error text. *)
Theorem log_response_skips_empty_values clock start_time status content_length error w :
  events_of (log_response clock start_time status (Some 0) error) w
  = events_of (log_response clock start_time status None error) w
  /\ events_of (log_response clock start_time status content_length (Some [])) w
     = events_of (log_response clock start_time status content_length None) w
  /\ (logs_error (events_of (log_response clock start_time status content_length error) w)
      = true <-> exists c e, error = Some (c :: e))
  /\ 2 <= length (events_of (log_response clock start_time status content_length error) w)
     <= 4.
Proof.
  rewrite !(events_of_run _ _ _ _ _ (log_response_run clock start_time status _ _ w)).
  split; [reflexivity|]. split; [reflexivity|]. split.
  - rewrite logs_error_response_records. destruct error as [[|c e]|].
    + split; [discriminate | intros (c & e & H); discriminate].
    + split; [intros _; now exists c, e | reflexivity].
    + split; [discriminate | intros (c & e & H); discriminate].
  - unfold response_records.
    destruct content_length as [[|n]|]; destruct error as [[|c e]|]; simpl; lia.
Qed.

(** The save handler reads the body and does nothing with it: every
    body that can be read is acknowledged with HTTP 200 and status
    "success", nothing is logged or stored.  A body that cannot be read
    gives HTTP 500 with the text of the exception in the message, two
    error records, and no data field. *)
Theorem save_diagram_acknowledges_any_body w :
  (forall data,
     save_diagram (Ok data) w
     = (Ok (Response 200 (JObj [(lit "status", JStr (lit "success"))])), w))
  /\ (forall e,
        exists resp,
          answer (save_diagram (Exc e)) w = Ok resp
          /\ status_code resp = 500
          /\ field "status" resp = Some (JStr (lit "error"))
          /\ field "message" resp
             = Some (JStr (lit "Gagal menyimpan diagram: " ++ exn_str e))
          /\ field "data" resp = None
          /\ events_of (save_diagram (Exc e)) w
             = [Log root ERROR (Line (lit "Error saving diagram: " ++ exn_str e));
                Log root ERROR (Traceback e)]).
Proof.
  split.
  - intros data. reflexivity.
  - intros e. eexists. split; [reflexivity|]. repeat split.
    unfold events_of, save_diagram.
    cbv beta iota delta [try_except bind lift ret raise emit logging_error Exception].
    cbn [trace reads snd].
    rewrite <- app_assoc, skipn_app, Nat.sub_diag, skipn_all. reflexivity.
Qed.

Lemma as_strs_strings (names : list str) (i : nat) :
  as_strs i (List.map JStr names) = Ok names.
Proof.
  revert i. induction names as [|s names IH]; intros i; [reflexivity|].
  cbn [List.map as_strs]. now rewrite IH.
Qed.

(** The related use cases in the prompt: when otherUseCases is an array
    of strings, the user prompt of the one gateway call lists them
    joined by a comma and a space, and holds "Tidak ada" in their place
    when the array is empty. *)
Theorem related_use_cases_in_prompt rt clock cfg kvs names w :
  available cfg ->
  truthy (use_case_name_of kvs) = true ->
  other_use_cases_of kvs = JArr (List.map JStr names) ->
  calls (events_of (generate_misuse_cases rt clock cfg (Ok (JObj kvs))) w)
  = [{| gc_model := MODEL cfg;
        gc_messages :=
          [[(lit "role", lit "system"); (lit "content", system_prompt)];
           [(lit "role", lit "user");
            (lit "content",
             user_prompt rt (use_case_name_of kvs) (system_name_of kvs)
               (match names with
                | [] => lit "Tidak ada"
                | _ :: _ => join (lit ", ") names
                end))]];
        gc_temperature := lit "0.7";
        gc_timeout := 30 |}].
Proof.
  intros Hav Hname Hother. rewrite handler_calls. unfold calls_of.
  rewrite (available_guard _ Hav), intake_of_object, Hname, Hother. cbn [negb].
  destruct names as [|s names].
  - reflexivity.
  - cbn [List.map truthy length Nat.eqb negb]. unfold py_join. cbn [py_iter].
    cbn [as_strs]. rewrite as_strs_strings. reflexivity.
Qed.

Lemma related_use_cases_in_prompt_witness :
  calls (events_of (generate_misuse_cases Reference.python Samples.midnight
                      (Samples.configured (Samples.completes_with "[]"))
                      (Ok (JObj [(lit "useCaseName", JStr (lit "Login"));
                                 (lit "otherUseCases",
                                  JArr (List.map JStr [lit "Logout"; lit "Register"]))])))
           Samples.fresh)
  = [{| gc_model := MODEL (Samples.configured (Samples.completes_with "[]"));
        gc_messages :=
          [[(lit "role", lit "system"); (lit "content", system_prompt)];
           [(lit "role", lit "user");
            (lit "content",
             user_prompt Reference.python (JStr (lit "Login")) (JStr (lit "the system"))
               (join (lit ", ") [lit "Logout"; lit "Register"]))]];
        gc_temperature := lit "0.7";
        gc_timeout := 30 |}].
Proof.
  apply (related_use_cases_in_prompt Reference.python Samples.midnight
           (Samples.configured (Samples.completes_with "[]"))
           [(lit "useCaseName", JStr (lit "Login"));
            (lit "otherUseCases", JArr (List.map JStr [lit "Logout"; lit "Register"]))]
           [lit "Logout"; lit "Register"] Samples.fresh).
  - split; [reflexivity|]. eexists. reflexivity.
  - reflexivity.
  - reflexivity.
Defined.
